(** * Voreeal: the region primitive of [Source/Voreeal/Classes/VoreealRegion.h]

    A shallow embedding of [FVoreealRegion], the integer-originated
    axis-aligned box of the Voreeal plugin, with its queries, its in-place
    mutators, its three-way classification and its two conversion
    boundaries (the PolyVox region type and the engine archive).

    Data are modelled as the header declares them:
    - [int32] fields are integers of [Z] kept in [-2^31, 2^31); the
      language leaves signed overflow undefined and the compiled operators
      wrap around in two's complement, which is what the model writes out;
    - the components of the engine's [FVector] are IEEE-754 binary32
      numbers, taken from the specification of floating-point arithmetic of
      the standard library ([SpecFloat], precision 24, [emax] 128), so that
      the conversions [int32 -> float] made by [FVector(X, Y, Z)] round to
      nearest-even and comparisons treat NaN the way the hardware does. *)

From Stdlib Require Import ZArith Lia Bool List.
From Stdlib Require Import Floats.SpecFloat.
From coqutil Require Import Byte Word.LittleEndianList.
Import ListNotations.

Local Open Scope Z_scope.

(** ** 32-bit signed integers *)

Module Int32.

Definition min_signed : Z := -2147483648.   (* - 2^31 *)
Definition max_signed : Z := 2147483647.    (* 2^31 - 1 *)
Definition modulus : Z := 4294967296.       (* 2^32 *)

(** The representable range of the type [int32]. *)
Definition in_range (z : Z) : bool :=
  (min_signed <=? z) && (z <=? max_signed).

(** Two's complement wrap-around of a mathematical result. *)
Definition wrap (z : Z) : Z :=
  (z - min_signed) mod modulus + min_signed.

Definition add (a b : Z) : Z := wrap (a + b).
Definition sub (a b : Z) : Z := wrap (a - b).
Definition mul (a b : Z) : Z := wrap (a * b).
Definition neg (a : Z) : Z := wrap (- a).

(** The operator [/] of C++ on integers truncates toward zero. *)
Definition div (a b : Z) : Z := wrap (Z.quot a b).

End Int32.

(** ** Single-precision numbers *)

Module Float32.

Definition prec : Z := 24.
Definition emax : Z := 128.

Definition float : Type := spec_float.

(** Conversion [int32 -> float], to nearest with ties to even. *)
Definition of_int (z : Z) : float := binary_normalize prec emax z 0 false.

Definition sub (x y : float) : float := SFsub prec emax x y.

Definition lt (x y : float) : bool := SFltb x y.
Definition le (x y : float) : bool := SFleb x y.
Definition gt (x y : float) : bool := lt y x.
Definition ge (x y : float) : bool := le y x.

Definition is_nan (x : float) : bool :=
  match x with S754_nan => true | _ => false end.

(** The integer obtained by discarding the fractional part of a finite
    number; infinities and NaN have none. *)
Definition truncate (x : float) : option Z :=
  match x with
  | S754_zero _ => Some 0
  | S754_finite s m e =>
      Some (cond_Zopp s (match e with
                         | Z0 => Zpos m
                         | Zpos p => Zpos m * 2 ^ Zpos p
                         | Zneg p => Zpos m / 2 ^ Zpos p
                         end))
  | S754_infinity _ | S754_nan => None
  end.

(** Conversion [float -> int32]: truncation toward zero.  The language
    leaves the conversion undefined when the truncated value does not fit
    the destination; that case is [None]. *)
Definition to_int (x : float) : option Z :=
  match truncate x with
  | Some z => if Int32.in_range z then Some z else None
  | None => None
  end.

(** *** The integer reading of the format *)

(** The value of a finite number multiplied by [2^149], an integer for every
    number of the format (its least exponent is -149). *)
Definition scaled (x : float) : option Z :=
  match x with
  | S754_zero _ => Some 0
  | S754_finite s m e => Some (cond_Zopp s (Zpos m * 2 ^ (e + 149)))
  | S754_infinity _ | S754_nan => None
  end.

(** [lo <= x <= hi] in exact arithmetic, for two integers and a number of
    the format: an infinity lies beyond every integer, and NaN is not a
    number. *)
Definition in_interval (lo hi : Z) (x : float) : bool :=
  match scaled x with
  | Some v => (lo * 2 ^ 149 <=? v) && (v <=? hi * 2 ^ 149)
  | None => false
  end.

(** The scaled value of a finite number in the canonical representation of
    the format; nothing for infinities, NaN and other representations. *)
Definition value (x : float) : option Z :=
  if valid_binary prec emax x then scaled x else None.

(** [z >= 0] divided by [2^k] and rounded to the nearest integer, a tie
    going to the even neighbour. *)
Definition round_even (k z : Z) : Z :=
  let q := z / 2 ^ k in
  let rest := z mod 2 ^ k in
  if 2 ^ k <? 2 * rest then q + 1
  else if (2 * rest =? 2 ^ k) && Z.odd q then q + 1
  else q.

(** The magnitude [a > 0] rounded to 24 significant bits. *)
Definition round_magnitude (a : Z) : Z :=
  let k := Z.max 0 (Z.log2 a - 23) in
  round_even k a * 2 ^ k.

(** The integer that the conversion of [z] to single precision denotes. *)
Definition round_int (z : Z) : Z :=
  Z.sgn z * round_magnitude (Z.abs z).

(** *** Notions used to relate the format to its integer reading *)

(** What a record holds after [k] right shifts of the mantissa [m]: the
    quotient, and in its two flags the position of the discarded rest
    relative to one half of the last place. *)
Definition shifted (m k : Z) (mrs : shr_record) : Prop :=
  0 <= shr_m mrs /\
  0 <= m - shr_m mrs * 2 ^ k < 2 ^ k /\
  (shr_r mrs = true <-> 2 ^ k <= 2 * (m - shr_m mrs * 2 ^ k)) /\
  (shr_s mrs = true <->
     m - shr_m mrs * 2 ^ k <> 0 /\ 2 * (m - shr_m mrs * 2 ^ k) <> 2 ^ k).

(** [x] is the normal number of sign [s] whose magnitude, multiplied by
    [2^149], is [v]. *)
Definition normal (x : float) (s : bool) (v : Z) : Prop :=
  exists (m : positive) (e : Z),
    x = S754_finite s m e /\
    bounded prec emax m e = true /\
    Zpos m * 2 ^ (e + 149) = v.

(** The second half of [binary_round_aux]: the rounded mantissa is put
    back in canonical position and the result is assembled. *)
Definition finish (s : bool) (m e : Z) : float :=
  let '(mrs, e') := shr_fexp prec emax m e loc_Exact in
  match shr_m mrs with
  | Z0 => S754_zero s
  | Zpos q =>
      if e' <=? emax - prec then S754_finite s q e'
      else S754_infinity s
  | Zneg _ => S754_nan
  end.

End Float32.

Abbreviation float := Float32.float (only parsing).
Abbreviation int32 := BinNums.Z (only parsing).

(** ** Engine vectors *)

(** Modelled from the spec: the engine's [FVector], declared outside the
    source; a "floating vector" of three single-precision components. *)
Module FVector.
Record t : Type := Make { X : float; Y : float; Z : float }.

(** [FVector(int32, int32, int32)]: each argument is converted to
    [float] by the call. *)
Definition of_ints (x y z : int32) : t :=
  Make (Float32.of_int x) (Float32.of_int y) (Float32.of_int z).

(** [FVector::ZeroVector] *)
Definition ZeroVector : t :=
  Make (S754_zero false) (S754_zero false) (S754_zero false).

Definition has_nan (v : t) : bool :=
  Float32.is_nan (X v) || Float32.is_nan (Y v) || Float32.is_nan (Z v).

(** The three components are numbers of the format: a finite one has a
    mantissa of at most 24 bits in canonical position. *)
Definition well_formed (v : t) : bool :=
  valid_binary Float32.prec Float32.emax (X v) &&
  valid_binary Float32.prec Float32.emax (Y v) &&
  valid_binary Float32.prec Float32.emax (Z v).
End FVector.

(** Modelled from the spec: the engine's [FIntVector], declared outside
    the source; the "integer-vector" counterpart, three [int32]
    components. *)
Module FIntVector.
Record t : Type := Make { X : int32; Y : int32; Z : int32 }.
End FIntVector.

(** ** The containment classification *)

Module EContainmentType.
Inductive t : Type :=
| Disjoint    (* no overlap between two bounding volumes *)
| Contains    (* one bounding volume completely contains another *)
| Intersects. (* bounding volumes partially overlap one another *)

Definition eqb (a b : t) : bool :=
  match a, b with
  | Disjoint, Disjoint | Contains, Contains | Intersects, Intersects => true
  | _, _ => false
  end.
End EContainmentType.

(** ** Regions *)

Module FVoreealRegion.

Record t : Type := Make {
  X : int32; Y : int32; Z : int32;
  Width : int32; Height : int32; Depth : int32
}.

(** Every field holds a value of its type. *)
Definition well_typed (r : t) : bool :=
  Int32.in_range (X r) && Int32.in_range (Y r) && Int32.in_range (Z r) &&
  Int32.in_range (Width r) && Int32.in_range (Height r) &&
  Int32.in_range (Depth r).

(** The intended invariant of a well-formed box: no extent is negative. *)
Definition valid (r : t) : bool :=
  (0 <=? Width r) && (0 <=? Height r) && (0 <=? Depth r).

(** The upper corner origin + extent is representable: [X + Width],
    [Y + Height] and [Z + Depth] do not leave the range of [int32]. *)
Definition upper_in_range (r : t) : bool :=
  Int32.in_range (X r + Width r) && Int32.in_range (Y r + Height r) &&
  Int32.in_range (Z r + Depth r).

(** *** Constructors *)

(** [FVoreealRegion()] *)
Definition default : t := Make 0 0 0 0 0 0.

(** [FVoreealRegion(FIntVector Lower, FIntVector Upper)] *)
Definition of_int_corners (Lower Upper : FIntVector.t) : t :=
  Make (FIntVector.X Lower) (FIntVector.Y Lower) (FIntVector.Z Lower)
       (Int32.sub (FIntVector.X Lower) (FIntVector.X Upper))
       (Int32.sub (FIntVector.Y Lower) (FIntVector.Y Upper))
       (Int32.sub (FIntVector.Z Lower) (FIntVector.Z Upper)).

(** [FVoreealRegion(FVector Lower, FVector Upper)]: the member
    initialisers convert six [float] expressions to [int32]; the region
    exists when all six conversions are defined. *)
Definition of_corners (Lower Upper : FVector.t) : option t :=
  match Float32.to_int (FVector.X Lower),
        Float32.to_int (FVector.Y Lower),
        Float32.to_int (FVector.Z Lower),
        Float32.to_int (Float32.sub (FVector.X Lower) (FVector.X Upper)),
        Float32.to_int (Float32.sub (FVector.Y Lower) (FVector.Y Upper)),
        Float32.to_int (Float32.sub (FVector.Z Lower) (FVector.Z Upper))
  with
  | Some x, Some y, Some z, Some w, Some h, Some d => Some (Make x y z w h d)
  | _, _, _, _, _, _ => None
  end.

(** [explicit FVoreealRegion(FVector Size)], which delegates to the
    two-corner constructor with [FVector::ZeroVector] as the lower corner. *)
Definition of_size (Size : FVector.t) : option t :=
  of_corners FVector.ZeroVector Size.

(** *** Queries *)

Definition Min (r : t) : FVector.t :=
  FVector.of_ints (X r) (Y r) (Z r).

Definition Max (r : t) : FVector.t :=
  FVector.of_ints (Int32.add (X r) (Width r))
                  (Int32.add (Y r) (Height r))
                  (Int32.add (Z r) (Depth r)).

Definition GetUpper (r : t) : FVector.t :=
  FVector.of_ints (Int32.add (X r) (Width r))
                  (Int32.add (Y r) (Height r))
                  (Int32.add (Z r) (Depth r)).

Definition GetLower (r : t) : FVector.t :=
  FVector.of_ints (X r) (Y r) (Z r).

Definition GetUpperInt (r : t) : FIntVector.t :=
  FIntVector.Make (Int32.add (X r) (Width r))
                  (Int32.add (Y r) (Height r))
                  (Int32.add (Z r) (Depth r)).

Definition GetLowerInt (r : t) : FIntVector.t :=
  FIntVector.Make (X r) (Y r) (Z r).

Definition Size (r : t) : FVector.t :=
  FVector.of_ints (Width r) (Height r) (Depth r).

Definition GetCenter (r : t) : FVector.t :=
  FVector.of_ints (Int32.add (X r) (Int32.div (Width r) 2))
                  (Int32.add (Y r) (Int32.div (Height r) 2))
                  (Int32.add (Z r) (Int32.div (Depth r) 2)).

(** *** Mutators: the region after the call *)

Definition Grow (pWidth pHeight pDepth : int32) (r : t) : t :=
  Make (Int32.sub (X r) pWidth)
       (Int32.sub (Y r) pHeight)
       (Int32.sub (Z r) pDepth)
       (Int32.add (Width r) (Int32.mul pWidth 2))
       (Int32.add (Height r) (Int32.mul pHeight 2))
       (Int32.add (Depth r) (Int32.mul pDepth 2)).

Definition GrowUnified (Amount : int32) (r : t) : t :=
  Make (Int32.sub (X r) Amount)
       (Int32.sub (Y r) Amount)
       (Int32.sub (Z r) Amount)
       (Int32.add (Width r) (Int32.mul Amount 2))
       (Int32.add (Height r) (Int32.mul Amount 2))
       (Int32.add (Depth r) (Int32.mul Amount 2)).

Definition ShiftUpperCorner (pX pY pZ : int32) (r : t) : t :=
  Make (Int32.add (X r) pX)
       (Int32.add (Y r) pY)
       (Int32.add (Z r) pZ)
       (Int32.sub (Width r) pX)
       (Int32.sub (Height r) pY)
       (Int32.sub (Depth r) pZ).

Definition ShiftLowerCorner (pX pY pZ : int32) (r : t) : t :=
  Make (X r) (Y r) (Z r)
       (Int32.add (Width r) pX)
       (Int32.add (Height r) pY)
       (Int32.add (Depth r) pZ).

(** *** Classification *)

(** [Contains(const FVoreealRegion&, const FVoreealRegion&)] *)
Definition Contains (Region1 Region2 : t) : EContainmentType.t :=
  let Lower1 := GetLower Region1 in
  let Upper1 := GetUpper Region1 in
  let Lower2 := GetLower Region2 in
  let Upper2 := GetUpper Region2 in
  if Float32.lt (FVector.X Upper2) (FVector.X Lower1) ||
     Float32.gt (FVector.X Lower2) (FVector.X Upper1) ||
     Float32.lt (FVector.Y Upper2) (FVector.Y Lower1) ||
     Float32.gt (FVector.Y Lower2) (FVector.Y Upper1) ||
     Float32.lt (FVector.Z Upper2) (FVector.Z Lower1) ||
     Float32.gt (FVector.Z Lower2) (FVector.Z Upper1)
  then EContainmentType.Disjoint
  else
    if Float32.ge (FVector.X Lower2) (FVector.X Lower1) &&
       Float32.le (FVector.X Upper2) (FVector.X Upper1) &&
       Float32.ge (FVector.Y Lower2) (FVector.Y Lower1) &&
       Float32.le (FVector.Y Upper2) (FVector.Y Upper1) &&
       Float32.ge (FVector.Z Lower2) (FVector.Z Lower1) &&
       Float32.le (FVector.Z Upper2) (FVector.Z Upper1)
    then EContainmentType.Contains
    else EContainmentType.Intersects.

(** [Contains(const FVoreealRegion&, const FVector&)]; the literal [1]
    of [Upper.X - 1] is converted to [float] and the subtraction is a
    single-precision one. *)
Definition ContainsVector (Region1 : t) (Vector : FVector.t) : bool :=
  let Lower := GetLower Region1 in
  let Upper := GetUpper Region1 in
  if Float32.lt (FVector.X Vector) (FVector.X Lower) ||
     Float32.gt (FVector.X Vector)
                (Float32.sub (FVector.X Upper) (Float32.of_int 1)) ||
     Float32.lt (FVector.Y Vector) (FVector.Y Lower) ||
     Float32.gt (FVector.Y Vector)
                (Float32.sub (FVector.Y Upper) (Float32.of_int 1)) ||
     Float32.lt (FVector.Z Vector) (FVector.Z Lower) ||
     Float32.gt (FVector.Z Vector)
                (Float32.sub (FVector.Z Upper) (Float32.of_int 1))
  then false
  else true.

(** The three-way classification read on the integer corners: the box
    [lower, upper] of [Region2] against that of [Region1], axis by axis. *)
Definition classify_corners (Region1 Region2 : t) : EContainmentType.t :=
  let x1 := X Region1 in let u1 := X Region1 + Width Region1 in
  let y1 := Y Region1 in let v1 := Y Region1 + Height Region1 in
  let z1 := Z Region1 in let w1 := Z Region1 + Depth Region1 in
  let x2 := X Region2 in let u2 := X Region2 + Width Region2 in
  let y2 := Y Region2 in let v2 := Y Region2 + Height Region2 in
  let z2 := Z Region2 in let w2 := Z Region2 + Depth Region2 in
  if (u2 <? x1) || (u1 <? x2) || (v2 <? y1) || (v1 <? y2) ||
     (w2 <? z1) || (w1 <? z2)
  then EContainmentType.Disjoint
  else if (x1 <=? x2) && (u2 <=? u1) && (y1 <=? y2) && (v2 <=? v1) &&
          (z1 <=? z2) && (w2 <=? w1)
  then EContainmentType.Contains
  else EContainmentType.Intersects.

(** Both corners have coordinates of at most [2^24] in magnitude, the
    integers that single precision holds exactly. *)
Definition corners_exact (r : t) : bool :=
  (Z.abs (X r) <=? 16777216) && (Z.abs (X r + Width r) <=? 16777216) &&
  (Z.abs (Y r) <=? 16777216) && (Z.abs (Y r + Height r) <=? 16777216) &&
  (Z.abs (Z r) <=? 16777216) && (Z.abs (Z r + Depth r) <=? 16777216).

(** Discrete cell occupancy: the integer point lies in
    [origin, origin + extent - 1] on every axis. *)
Definition occupies (Region1 : t) (px py pz : int32) : bool :=
  (X Region1 <=? px) && (px <=? X Region1 + Width Region1 - 1) &&
  (Y Region1 <=? py) && (py <=? Y Region1 + Height Region1 - 1) &&
  (Z Region1 <=? pz) && (pz <=? Z Region1 + Depth Region1 - 1).

(** The corners are exact and so is the greatest cell below the upper
    corner. *)
Definition cells_exact (r : t) : bool :=
  corners_exact r &&
  (-16777216 <? X r + Width r) && (-16777216 <? Y r + Height r) &&
  (-16777216 <? Z r + Depth r).

(** The three-way classification of two integer boxes given by their
    corners, the second against the first. *)
Definition classify_boxes (Lower1 Upper1 Lower2 Upper2 : FIntVector.t)
  : EContainmentType.t :=
  if (FIntVector.X Upper2 <? FIntVector.X Lower1) ||
     (FIntVector.X Upper1 <? FIntVector.X Lower2) ||
     (FIntVector.Y Upper2 <? FIntVector.Y Lower1) ||
     (FIntVector.Y Upper1 <? FIntVector.Y Lower2) ||
     (FIntVector.Z Upper2 <? FIntVector.Z Lower1) ||
     (FIntVector.Z Upper1 <? FIntVector.Z Lower2)
  then EContainmentType.Disjoint
  else
    if (FIntVector.X Lower1 <=? FIntVector.X Lower2) &&
       (FIntVector.X Upper2 <=? FIntVector.X Upper1) &&
       (FIntVector.Y Lower1 <=? FIntVector.Y Lower2) &&
       (FIntVector.Y Upper2 <=? FIntVector.Y Upper1) &&
       (FIntVector.Z Lower1 <=? FIntVector.Z Lower2) &&
       (FIntVector.Z Upper2 <=? FIntVector.Z Upper1)
    then EContainmentType.Contains
    else EContainmentType.Intersects.

(** The integers that the components of [GetLower()] and [GetUpper()]
    denote: the [int32] corners after their conversion to [float]. *)
Definition LowerValue (r : t) : FIntVector.t :=
  FIntVector.Make (Float32.round_int (X r)) (Float32.round_int (Y r))
                  (Float32.round_int (Z r)).

Definition UpperValue (r : t) : FIntVector.t :=
  FIntVector.Make (Float32.round_int (Int32.add (X r) (Width r)))
                  (Float32.round_int (Int32.add (Y r) (Height r)))
                  (Float32.round_int (Int32.add (Z r) (Depth r))).

(** The point test in the words of the specification: on every axis the
    point lies in [lower, upper - 1], the bounds being the integers origin
    and origin + extent - 1 and the comparisons exact. *)
Definition lies_in_cells (Region1 : t) (Vector : FVector.t) : bool :=
  Float32.in_interval (X Region1) (X Region1 + Width Region1 - 1)
                      (FVector.X Vector) &&
  Float32.in_interval (Y Region1) (Y Region1 + Height Region1 - 1)
                      (FVector.Y Vector) &&
  Float32.in_interval (Z Region1) (Z Region1 + Depth Region1 - 1)
                      (FVector.Z Vector).

(** Cell occupancy for a point given by its coordinates multiplied by
    [2^149], the scale at which every finite single-precision number is an
    integer: [X <= p <= X + Width - 1] on every axis. *)
Definition occupies_scaled (Region1 : t) (vx vy vz : BinNums.Z) : bool :=
  (X Region1 * 2 ^ 149 <=? vx) &&
  (vx <=? (X Region1 + Width Region1 - 1) * 2 ^ 149) &&
  (Y Region1 * 2 ^ 149 <=? vy) &&
  (vy <=? (Y Region1 + Height Region1 - 1) * 2 ^ 149) &&
  (Z Region1 * 2 ^ 149 <=? vz) &&
  (vz <=? (Z Region1 + Depth Region1 - 1) * 2 ^ 149).

(** [Intersect(Region1, Region2)] *)
Definition Intersect (Region1 Region2 : t) : bool :=
  EContainmentType.eqb (Contains Region1 Region2) EContainmentType.Intersects.

End FVoreealRegion.

(** ** The conversion boundary with PolyVox *)

Module PolyVox.

(** Modelled from the spec: [PolyVox::Region] of the third-party header
    [<PolyVox/Region.h>], which is included by the source and is not part
    of it.  The external type "uses an inclusive lower/upper pair"; its
    width, height and depth accessors "are exclusive-upper-bound derived
    values, not direct subtraction": measured in voxels, a region counts
    both of its bounding voxels, one more than the distance between the
    corners (the distance itself is what PolyVox calls the size in
    cells). *)
Module Region.

Record t : Type := Make {
  m_iLowerX : int32; m_iLowerY : int32; m_iLowerZ : int32;
  m_iUpperX : int32; m_iUpperY : int32; m_iUpperZ : int32
}.

Definition getLowerX (r : t) : int32 := m_iLowerX r.
Definition getLowerY (r : t) : int32 := m_iLowerY r.
Definition getLowerZ (r : t) : int32 := m_iLowerZ r.
Definition getUpperX (r : t) : int32 := m_iUpperX r.
Definition getUpperY (r : t) : int32 := m_iUpperY r.
Definition getUpperZ (r : t) : int32 := m_iUpperZ r.

Definition getWidthInCells (r : t) : int32 :=
  Int32.sub (m_iUpperX r) (m_iLowerX r).
Definition getHeightInCells (r : t) : int32 :=
  Int32.sub (m_iUpperY r) (m_iLowerY r).
Definition getDepthInCells (r : t) : int32 :=
  Int32.sub (m_iUpperZ r) (m_iLowerZ r).

Definition getWidthInVoxels (r : t) : int32 :=
  Int32.add (getWidthInCells r) 1.
Definition getHeightInVoxels (r : t) : int32 :=
  Int32.add (getHeightInCells r) 1.
Definition getDepthInVoxels (r : t) : int32 :=
  Int32.add (getDepthInCells r) 1.

End Region.

End PolyVox.

Module Conversion.

(** [FVoreealRegion::operator=(const PolyVox::Region&)], which the
    converting constructor calls. *)
Definition of_PolyVox (Other : PolyVox.Region.t) : FVoreealRegion.t :=
  let width := PolyVox.Region.getWidthInVoxels Other in
  let height := PolyVox.Region.getHeightInVoxels Other in
  let depth := PolyVox.Region.getDepthInVoxels Other in
  FVoreealRegion.Make (PolyVox.Region.getLowerX Other)
                      (PolyVox.Region.getLowerY Other)
                      (PolyVox.Region.getLowerZ Other)
                      width height depth.

(** [FVoreealRegion::operator PolyVox::Region() const] *)
Definition to_PolyVox (r : FVoreealRegion.t) : PolyVox.Region.t :=
  PolyVox.Region.Make
    (FVoreealRegion.X r) (FVoreealRegion.Y r) (FVoreealRegion.Z r)
    (Int32.add (FVoreealRegion.X r) (FVoreealRegion.Width r))
    (Int32.add (FVoreealRegion.Y r) (FVoreealRegion.Height r))
    (Int32.add (FVoreealRegion.Z r) (FVoreealRegion.Depth r)).

End Conversion.

(** ** The persistence boundary *)

Module FArchive.

(** Modelled from the spec: the engine's [FArchive], declared outside the
    source.  An archive either saves or loads; its content is "a flat
    sequence" of bytes with "no versioning, no length prefix".  Saving
    appends at the end, loading consumes from the front; a load that
    finds fewer bytes than it needs raises the error flag and leaves the
    destination as it was, after which the archive transfers nothing. *)
Record t : Type := Make {
  IsLoading : bool;
  IsError : bool;
  Data : list byte
}.

(** Computations that thread an archive. *)
Definition M (A : Type) : Type := t -> A * t.

Definition ret {A : Type} (a : A) : M A := fun Ar => (a, Ar).

Definition bind {A B : Type} (m : M A) (f : A -> M B) : M B :=
  fun Ar => let (a, Ar') := m Ar in f a Ar'.

(** [Ar << Value] for an [int32&]: four bytes, least significant first;
    the result is the value of the variable after the transfer. *)
Definition int32_io (Value : int32) : M int32 :=
  fun Ar =>
    if IsError Ar then (Value, Ar)
    else if IsLoading Ar then
      match Data Ar with
      | b0 :: b1 :: b2 :: b3 :: rest =>
          (Int32.wrap (le_combine [b0; b1; b2; b3]),
           Make true false rest)
      | _ => (Value, Make true true (Data Ar))
      end
    else (Value, Make false false (Data Ar ++ le_split 4 Value)).

End FArchive.

Notation "x <- m ;; f" := (FArchive.bind m (fun x => f))
  (at level 61, m at next level, right associativity).

Module Persistence.

(** [operator<<(FArchive& Ar, FVoreealRegion& Region)]; the result pairs
    the region after the call with the archive after the call. *)
Definition serialize (Region : FVoreealRegion.t)
  : FArchive.M FVoreealRegion.t :=
  x <- FArchive.int32_io (FVoreealRegion.X Region) ;;
  y <- FArchive.int32_io (FVoreealRegion.Y Region) ;;
  z <- FArchive.int32_io (FVoreealRegion.Z Region) ;;
  w <- FArchive.int32_io (FVoreealRegion.Width Region) ;;
  h <- FArchive.int32_io (FVoreealRegion.Height Region) ;;
  d <- FArchive.int32_io (FVoreealRegion.Depth Region) ;;
  FArchive.ret (FVoreealRegion.Make x y z w h d).

(** The bytes a region occupies in an archive. *)
Definition image (r : FVoreealRegion.t) : list byte :=
  le_split 4 (FVoreealRegion.X r) ++
  le_split 4 (FVoreealRegion.Y r) ++
  le_split 4 (FVoreealRegion.Z r) ++
  le_split 4 (FVoreealRegion.Width r) ++
  le_split 4 (FVoreealRegion.Height r) ++
  le_split 4 (FVoreealRegion.Depth r).

End Persistence.

(** * Properties *)

(** ** Wrap-around arithmetic *)

Module Int32Facts.

Lemma in_range_iff z :
  Int32.in_range z = true <-> Int32.min_signed <= z <= Int32.max_signed.
Proof. unfold Int32.in_range. rewrite andb_true_iff, !Z.leb_le. tauto. Qed.

Lemma wrap_in_range z : Int32.in_range (Int32.wrap z) = true.
Proof.
  apply in_range_iff.
  unfold Int32.wrap, Int32.min_signed, Int32.max_signed, Int32.modulus.
  Z.div_mod_to_equations. lia.
Qed.

Lemma wrap_small z : Int32.in_range z = true -> Int32.wrap z = z.
Proof.
  rewrite in_range_iff.
  unfold Int32.wrap, Int32.min_signed, Int32.max_signed, Int32.modulus.
  intros. Z.div_mod_to_equations. lia.
Qed.

(** Two integers congruent modulo [2^32] wrap to the same [int32]. *)
Lemma wrap_congr a b k : a = b + k * Int32.modulus -> Int32.wrap a = Int32.wrap b.
Proof.
  intros ->. unfold Int32.wrap.
  replace (b + k * Int32.modulus - Int32.min_signed)
    with (b - Int32.min_signed + k * Int32.modulus) by ring.
  now rewrite Z_mod_plus_full.
Qed.

Lemma wrap_repr z : exists k, Int32.wrap z = z + k * Int32.modulus.
Proof.
  exists (- ((z - Int32.min_signed) / Int32.modulus)).
  unfold Int32.wrap, Int32.min_signed, Int32.modulus.
  Z.div_mod_to_equations. lia.
Qed.

End Int32Facts.

(** ** Single precision: conversion and comparison *)

Module Float32Facts.

Abbreviation shifted := Float32.shifted (only parsing).
Abbreviation normal := Float32.normal (only parsing).
Abbreviation finish := Float32.finish (only parsing).

Lemma digits2_bounds (p : positive) :
  2 ^ (Zpos (digits2_pos p) - 1) <= Zpos p < 2 ^ Zpos (digits2_pos p).
Proof.
  induction p as [p IH | p IH | ]; cbn [digits2_pos].
  - rewrite Pos2Z.inj_succ.
    replace (Z.succ (Zpos (digits2_pos p)) - 1)
      with (Z.succ (Zpos (digits2_pos p) - 1)) by lia.
    rewrite !Z.pow_succ_r by lia. lia.
  - rewrite Pos2Z.inj_succ.
    replace (Z.succ (Zpos (digits2_pos p)) - 1)
      with (Z.succ (Zpos (digits2_pos p) - 1)) by lia.
    rewrite !Z.pow_succ_r by lia. lia.
  - cbn. lia.
Qed.

Lemma digits2_unique (p : positive) (d : Z) :
  2 ^ (d - 1) <= Zpos p < 2 ^ d -> Zpos (digits2_pos p) = d.
Proof.
  intros [Hlo Hhi]. pose proof (digits2_bounds p) as [Blo Bhi].
  set (d0 := Zpos (digits2_pos p)) in *.
  assert (0 < d).
  { destruct (Z_lt_le_dec 0 d) as [ | Hd ]; [ assumption | exfalso ].
    assert (2 ^ d <= 2 ^ 0) by (apply Z.pow_le_mono_r; lia).
    change (2 ^ 0) with 1 in *. lia. }
  destruct (Z.lt_trichotomy d0 d) as [Hlt | [Heq | Hgt]];
    [ exfalso | assumption | exfalso ].
  - assert (2 ^ d0 <= 2 ^ (d - 1)) by (apply Z.pow_le_mono_r; lia). lia.
  - assert (2 ^ d <= 2 ^ (d0 - 1)) by (apply Z.pow_le_mono_r; lia). lia.
Qed.

Lemma iter_xO (p n : positive) :
  Zpos (Pos.iter xO p n) = Zpos p * 2 ^ Zpos n.
Proof.
  induction n as [ | n IH ] using Pos.peano_ind.
  - cbn. lia.
  - rewrite Pos.iter_succ, Pos2Z.inj_succ, Z.pow_succ_r by lia.
    change (Zpos (Pos.iter xO p n)~0) with (2 * Zpos (Pos.iter xO p n)).
    rewrite IH. ring.
Qed.

(** Iterating a step [n] times carries an invariant indexed by the number
    of steps made. *)
Lemma iter_pos_invariant {A : Type} (f : A -> A) (P : Z -> A -> Prop) :
  (forall k x, 0 <= k -> P k x -> P (k + 1) (f x)) ->
  forall (n : positive) (k : Z) (x : A),
    0 <= k -> P k x -> P (k + Zpos n) (iter_pos f n x).
Proof.
  intros Hstep. induction n as [n IH | n IH | ]; intros k x Hk Hx;
    cbn [iter_pos].
  - replace (k + Zpos n~1) with (k + 1 + Zpos n + Zpos n) by lia.
    apply IH; [ lia | ]. apply IH; [ lia | ]. now apply Hstep.
  - replace (k + Zpos n~0) with (k + Zpos n + Zpos n) by lia.
    apply IH; [ lia | ]. now apply IH.
  - now apply Hstep.
Qed.

Lemma shifted_start (m : Z) :
  0 <= m -> shifted m 0 (shr_record_of_loc m loc_Exact).
Proof.
  intros Hm. unfold shifted.
  cbn [shr_record_of_loc shr_m shr_r shr_s]. change (2 ^ 0) with 1.
  replace (m - m * 1) with 0 by ring.
  repeat split; try lia; intros; try discriminate; lia.
Qed.

Lemma shifted_step (m k : Z) (mrs : shr_record) :
  0 <= k -> shifted m k mrs -> shifted m (k + 1) (shr_1 mrs).
Proof.
  intros Hk (Hm & Hrest & Hr & Hs). unfold shifted.
  rewrite Z.pow_add_r by lia. change (2 ^ 1) with 2.
  assert (0 < 2 ^ k) by (apply Z.pow_pos_nonneg; lia).
  set (T := 2 ^ k) in *.
  destruct mrs as [q r s]; cbn [shr_m shr_r shr_s] in *.
  assert (Hrs : orb r s = true <-> m - q * T <> 0).
  { rewrite orb_true_iff. destruct r, s; lia. }
  destruct q as [ | [ q | q | ] | q ]; cbn [shr_1 shr_m shr_r shr_s];
    try lia;
    (split; [ lia | split; [ lia | split; [ split; [ try discriminate; lia | try reflexivity; lia ] | ] ] ]);
    rewrite Hrs; lia.
Qed.
Lemma shr_1_nonneg (mrs : shr_record) : 0 <= shr_m mrs -> 0 <= shr_m (shr_1 mrs).
Proof.
  destruct mrs as [[ | [ q | q | ] | q ] r s]; cbn [shr_1 shr_m]; lia.
Qed.

Lemma shr_nonneg (mrs : shr_record) (e n : Z) :
  0 <= shr_m mrs -> 0 <= shr_m (fst (shr mrs e n)).
Proof.
  intros Hm. destruct n as [ | n | n ]; cbn [shr fst]; try assumption.
  apply (iter_pos_invariant shr_1 (fun _ x => 0 <= shr_m x)) with (k := 0);
    [ intros; now apply shr_1_nonneg | lia | assumption ].
Qed.

Lemma shr_fexp_nonneg (m e : Z) (l : location) :
  0 <= m -> 0 <= shr_m (fst (shr_fexp Float32.prec Float32.emax m e l)).
Proof.
  intros Hm. unfold shr_fexp. apply shr_nonneg.
  destruct l as [ | [ | | ] ]; exact Hm.
Qed.

Lemma round_nearest_even_nonneg (m : Z) (l : location) :
  0 <= m -> 0 <= round_nearest_even m l.
Proof.
  intros Hm. destruct l as [ | [ | | ] ]; cbn [round_nearest_even];
    try destruct (Z.even m); lia.
Qed.

Lemma binary_round_aux_not_nan (s : bool) (m e : Z) (l : location) :
  0 <= m -> binary_round_aux Float32.prec Float32.emax s m e l <> S754_nan.
Proof.
  intros Hm. unfold binary_round_aux.
  pose proof (shr_fexp_nonneg m e l Hm) as H1.
  destruct (shr_fexp Float32.prec Float32.emax m e l) as [mrs' e'].
  cbn [fst] in H1.
  pose proof (round_nearest_even_nonneg _ (loc_of_shr_record mrs') H1) as H2.
  pose proof (shr_fexp_nonneg _ e' loc_Exact H2) as H3.
  destruct (shr_fexp Float32.prec Float32.emax
              (round_nearest_even (shr_m mrs') (loc_of_shr_record mrs'))
              e' loc_Exact) as [mrs'' e''].
  cbn [fst] in H3.
  destruct (shr_m mrs'') as [ | q | q ]; [ discriminate | | lia ].
  destruct (e'' <=? Float32.emax - Float32.prec); discriminate.
Qed.

Lemma binary_normalize_not_nan (m e : Z) (szero : bool) :
  binary_normalize Float32.prec Float32.emax m e szero <> S754_nan.
Proof.
  destruct m as [ | p | p ]; cbn [binary_normalize]; [ discriminate | | ];
    unfold binary_round;
    destruct (shl_align p e _) as [mz ez];
    apply binary_round_aux_not_nan; lia.
Qed.

(** A conversion from [int32] never yields NaN. *)
Lemma of_int_not_nan (z : Z) : Float32.is_nan (Float32.of_int z) = false.
Proof.
  pose proof (binary_normalize_not_nan z 0 false) as H.
  unfold Float32.of_int. destruct (binary_normalize _ _ z 0 false);
    try reflexivity. now elim H.
Qed.

(** Nor does subtracting one from a number that is not NaN. *)
Lemma sub_one_not_nan (x : float) :
  Float32.is_nan x = false ->
  Float32.is_nan (Float32.sub x (Float32.of_int 1)) = false.
Proof.
  intros Hx. change (Float32.of_int 1) with (S754_finite false 8388608 (-23)).
  destruct x as [ s | s | | s m e ]; try discriminate Hx; try reflexivity.
  unfold Float32.sub; cbn [SFsub].
  match goal with |- Float32.is_nan ?b = false =>
    pose proof (binary_normalize_not_nan
                  (cond_Zopp s (Zpos (fst (shl_align m e (Z.min e (-23))))) -
                   cond_Zopp false
                     (Zpos (fst (shl_align 8388608 (-23) (Z.min e (-23))))))
                  (Z.min e (-23)) false) as H
  end.
  destruct (binary_normalize _ _ _ _ _); try reflexivity. now elim H.
Qed.

(** Exchanging the operands of a comparison reverses its answer. *)
Lemma SFcompare_antisym (x y : float) :
  SFcompare y x = option_map CompOpp (SFcompare x y).
Proof.
  destruct x as [ sx | sx | | sx mx ex ], y as [ sy | sy | | sy my ey ];
    try destruct sx; try destruct sy; try reflexivity;
    cbn [SFcompare option_map]; f_equal;
    rewrite (Z.compare_antisym ex ey);
    destruct (ex ?= ey); cbn [CompOpp]; try reflexivity;
    rewrite (Pos.compare_cont_antisym mx my Eq); reflexivity.
Qed.

Lemma SFcompare_defined (x y : float) :
  Float32.is_nan x = false -> Float32.is_nan y = false ->
  exists c, SFcompare x y = Some c.
Proof.
  intros Hx Hy.
  destruct x as [ sx | sx | | sx mx ex ]; try discriminate Hx;
    destruct y as [ sy | sy | | sy my ey ]; try discriminate Hy;
    cbn [SFcompare]; eexists; reflexivity.
Qed.

(** For numbers that are not NaN, "not less than" is "greater or equal". *)
Lemma not_lt_iff_ge (x y : float) :
  Float32.is_nan x = false -> Float32.is_nan y = false ->
  (Float32.lt x y = false <-> Float32.le y x = true).
Proof.
  intros Hx Hy. unfold Float32.lt, Float32.le, SFltb, SFleb.
  rewrite (SFcompare_antisym x y).
  destruct (SFcompare_defined x y Hx Hy) as [c ->].
  destruct c; cbn [option_map CompOpp]; split; intros;
    try reflexivity; try discriminate.
Qed.

Lemma lt_negb_le (x y : float) :
  Float32.is_nan x = false -> Float32.is_nan y = false ->
  Float32.lt x y = negb (Float32.le y x).
Proof.
  intros Hx Hy. pose proof (not_lt_iff_ge x y Hx Hy) as [H1 H2].
  destruct (Float32.lt x y), (Float32.le y x); try reflexivity.
  - now specialize (H2 eq_refl).
  - now specialize (H1 eq_refl).
Qed.

(** *** Rounding on integers *)

Lemma round_even_bounds (k z : Z) :
  z / 2 ^ k <= Float32.round_even k z <= z / 2 ^ k + 1.
Proof.
  unfold Float32.round_even.
  destruct (2 ^ k <? 2 * (z mod 2 ^ k)); [ lia | ].
  destruct ((2 * (z mod 2 ^ k) =? 2 ^ k) && Z.odd (z / 2 ^ k)); lia.
Qed.

Lemma round_even_mono (k a b : Z) :
  0 <= k -> a <= b -> Float32.round_even k a <= Float32.round_even k b.
Proof.
  intros Hk Hab.
  assert (HT : 0 < 2 ^ k) by (apply Z.pow_pos_nonneg; lia).
  pose proof (Z.div_le_mono a b (2 ^ k) HT Hab) as Hq.
  destruct (Z.eq_dec (a / 2 ^ k) (b / 2 ^ k)) as [E | NE].
  - pose proof (Z.div_mod a (2 ^ k) ltac:(lia)) as Ha.
    pose proof (Z.div_mod b (2 ^ k) ltac:(lia)) as Hb.
    unfold Float32.round_even. rewrite E in *.
    set (T := 2 ^ k) in *. set (q := b / T) in *.
    set (ra := a mod T) in *. set (rb := b mod T) in *.
    assert (ra <= rb) by lia.
    destruct (Z.ltb_spec T (2 * ra)), (Z.ltb_spec T (2 * rb)),
      (Z.eqb_spec (2 * ra) T), (Z.eqb_spec (2 * rb) T), (Z.odd q);
      cbn [andb]; lia.
  - pose proof (round_even_bounds k a). pose proof (round_even_bounds k b).
    lia.
Qed.

Lemma round_even_0 (z : Z) : Float32.round_even 0 z = z.
Proof.
  unfold Float32.round_even. change (2 ^ 0) with 1.
  rewrite Z.mod_1_r, Z.div_1_r. reflexivity.
Qed.

(** A rounded magnitude stays in the binade of its argument, ends
    included. *)
Lemma round_magnitude_bounds (a : Z) :
  0 < a ->
  2 ^ Z.log2 a <= Float32.round_magnitude a <= 2 ^ (Z.log2 a + 1).
Proof.
  intros Ha. pose proof (Z.log2_spec a Ha) as [Hlo Hhi].
  pose proof (Z.log2_nonneg a) as HL.
  unfold Float32.round_magnitude.
  set (L := Z.log2 a) in *. set (k := Z.max 0 (L - 23)).
  assert (Hk : 0 <= k <= L) by lia.
  assert (HT : 0 < 2 ^ k) by (apply Z.pow_pos_nonneg; lia).
  pose proof (round_even_bounds k a) as [Rlo Rhi].
  assert (E1 : 2 ^ L = 2 ^ (L - k) * 2 ^ k).
  { rewrite <- Z.pow_add_r by lia. f_equal. lia. }
  assert (E2 : 2 ^ (L + 1) = 2 ^ (L + 1 - k) * 2 ^ k).
  { rewrite <- Z.pow_add_r by lia. f_equal. lia. }
  replace (Z.succ L) with (L + 1) in Hhi by lia.
  assert (Q1 : 2 ^ (L - k) <= a / 2 ^ k).
  { apply Z.div_le_lower_bound; [ assumption | ]. rewrite Z.mul_comm. lia. }
  assert (Q2 : a / 2 ^ k < 2 ^ (L + 1 - k)).
  { apply Z.div_lt_upper_bound; [ assumption | ]. rewrite Z.mul_comm. lia. }
  split.
  - rewrite E1. apply Z.mul_le_mono_nonneg_r; lia.
  - rewrite E2. apply Z.mul_le_mono_nonneg_r; lia.
Qed.

Lemma round_magnitude_mono (a b : Z) :
  0 < a -> a <= b -> Float32.round_magnitude a <= Float32.round_magnitude b.
Proof.
  intros Ha Hab.
  pose proof (Z.log2_le_mono a b Hab) as HL.
  destruct (Z.eq_dec (Z.log2 a) (Z.log2 b)) as [E | NE].
  - unfold Float32.round_magnitude. rewrite E.
    apply Z.mul_le_mono_nonneg_r; [ apply Z.pow_nonneg; lia | ].
    apply round_even_mono; lia.
  - pose proof (round_magnitude_bounds a Ha) as [_ Hup].
    pose proof (round_magnitude_bounds b ltac:(lia)) as [Hlow _].
    assert (2 ^ (Z.log2 a + 1) <= 2 ^ Z.log2 b)
      by (apply Z.pow_le_mono_r; lia).
    lia.
Qed.

Lemma round_magnitude_pos (a : Z) : 0 < a -> 0 < Float32.round_magnitude a.
Proof.
  intros Ha. pose proof (round_magnitude_bounds a Ha) as [H _].
  assert (0 < 2 ^ Z.log2 a)
    by (apply Z.pow_pos_nonneg; [ lia | apply Z.log2_nonneg ]).
  lia.
Qed.

(** The conversion is monotone. *)
Lemma round_int_mono (a b : Z) :
  a <= b -> Float32.round_int a <= Float32.round_int b.
Proof.
  intros Hab. unfold Float32.round_int.
  destruct a as [ | a | a ], b as [ | b | b ]; cbn [Z.sgn Z.abs]; try lia.
  - pose proof (@round_magnitude_pos (Zpos b) ltac:(lia)). lia.
  - pose proof (@round_magnitude_mono (Zpos a) (Zpos b) ltac:(lia) Hab). lia.
  - pose proof (@round_magnitude_pos (Zpos a) ltac:(lia)). lia.
  - pose proof (@round_magnitude_pos (Zpos a) ltac:(lia)).
    pose proof (@round_magnitude_pos (Zpos b) ltac:(lia)). lia.
  - pose proof (@round_magnitude_mono (Zpos b) (Zpos a) ltac:(lia) ltac:(lia)).
    lia.
Qed.

(** Integers of at most 24 significant bits are converted exactly. *)
Lemma round_int_exact (z : Z) :
  Z.abs z <= 2 ^ 24 -> Float32.round_int z = z.
Proof.
  intros Hz. unfold Float32.round_int.
  assert (Hmag : forall a, 0 < a <= 2 ^ 24 -> Float32.round_magnitude a = a).
  { intros a [Ha Hle].
    destruct (Z.eq_dec a (2 ^ 24)) as [-> | Hne]; [ reflexivity | ].
    unfold Float32.round_magnitude.
    assert (Z.log2 a < 24) by (apply Z.log2_lt_pow2; lia).
    replace (Z.max 0 (Z.log2 a - 23)) with 0 by lia.
    rewrite round_even_0. change (2 ^ 0) with 1. lia. }
  destruct z as [ | p | p ]; cbn [Z.sgn Z.abs] in *;
    [ reflexivity | | ]; rewrite Hmag by lia; lia.
Qed.

(** *** Numbers of the format and their order *)

Lemma bounded_facts (m : positive) (e : Z) :
  bounded Float32.prec Float32.emax m e = true ->
  -149 <= e <= 104 /\
  Zpos (digits2_pos m) <= 24 /\
  (-149 < e -> Zpos (digits2_pos m) = 24).
Proof.
  unfold bounded, canonical_mantissa, fexp, emin, Float32.prec, Float32.emax.
  rewrite andb_true_iff, Z.eqb_eq, Z.leb_le. lia.
Qed.

(** Among numbers of the format, a smaller exponent means a smaller
    magnitude. *)
Lemma scaled_lt (m1 m2 : positive) (e1 e2 : Z) :
  bounded Float32.prec Float32.emax m1 e1 = true ->
  bounded Float32.prec Float32.emax m2 e2 = true ->
  e1 < e2 ->
  Zpos m1 * 2 ^ (e1 + 149) < Zpos m2 * 2 ^ (e2 + 149).
Proof.
  intros B1 B2 He.
  apply bounded_facts in B1; destruct B1 as (R1 & D1 & _).
  apply bounded_facts in B2; destruct B2 as (R2 & _ & D2).
  specialize (D2 ltac:(lia)).
  pose proof (digits2_bounds m1) as [_ U1].
  pose proof (digits2_bounds m2) as [L2 _].
  rewrite D2 in L2. change (2 ^ (24 - 1)) with 8388608 in L2.
  assert (2 ^ Zpos (digits2_pos m1) <= 2 ^ 24)
    by (apply Z.pow_le_mono_r; lia).
  change (2 ^ 24) with 16777216 in *.
  replace (e2 + 149) with ((e1 + 149) + (e2 - e1)) by lia.
  rewrite (Z.pow_add_r 2 (e1 + 149) (e2 - e1)) by lia.
  assert (0 < 2 ^ (e1 + 149)) by (apply Z.pow_pos_nonneg; lia).
  assert (2 ^ 1 <= 2 ^ (e2 - e1)) by (apply Z.pow_le_mono_r; lia).
  change (2 ^ 1) with 2 in *.
  set (T := 2 ^ (e1 + 149)) in *. set (K := 2 ^ (e2 - e1)) in *.
  assert (Zpos m1 * T < 16777216 * T) by (apply Z.mul_lt_mono_pos_r; lia).
  assert (T * 2 <= T * K) by (apply Z.mul_le_mono_nonneg_l; lia).
  assert (8388608 * (T * K) <= Zpos m2 * (T * K))
    by (apply Z.mul_le_mono_nonneg_r; lia).
  lia.
Qed.

Lemma scaled_pos (m : positive) (e : Z) :
  bounded Float32.prec Float32.emax m e = true -> 0 < Zpos m * 2 ^ (e + 149).
Proof.
  intros B. apply bounded_facts in B; destruct B as (R & _).
  apply Z.mul_pos_pos; [ lia | apply Z.pow_pos_nonneg; lia ].
Qed.

Lemma mul_compare_pos (n m p : Z) :
  0 < p -> (n * p ?= m * p) = (n ?= m).
Proof.
  intros Hp. destruct (Z.compare_spec n m) as [ -> | Hlt | Hgt ].
  - apply Z.compare_refl.
  - apply Z.compare_lt_iff. now apply Z.mul_lt_mono_pos_r.
  - apply Z.compare_gt_iff. now apply Z.mul_lt_mono_pos_r.
Qed.

Lemma Some_inj {A : Type} (a b : A) : Some a = Some b -> a = b.
Proof. congruence. Qed.

(** Comparing two numbers of the format is comparing their values. *)
Lemma compare_scaled (x y : float) (u v : Z) :
  valid_binary Float32.prec Float32.emax x = true ->
  valid_binary Float32.prec Float32.emax y = true ->
  Float32.scaled x = Some u -> Float32.scaled y = Some v ->
  SFcompare x y = Some (u ?= v).
Proof.
  intros Vx Vy Sx Sy.
  destruct x as [ sx | sx | | sx mx ex ]; try discriminate Sx;
    destruct y as [ sy | sy | | sy my ey ]; try discriminate Sy;
    unfold Float32.scaled in Sx, Sy; unfold valid_binary in Vx, Vy;
    apply Some_inj in Sx; apply Some_inj in Sy; subst u v;
    unfold SFcompare; f_equal.
  - pose proof (scaled_pos _ _ Vy).
    set (P := Zpos my * 2 ^ (ey + 149)) in *.
    destruct sy; cbn [cond_Zopp]; symmetry;
      [ apply Z.compare_gt_iff | apply Z.compare_lt_iff ]; lia.
  - pose proof (scaled_pos _ _ Vx).
    set (P := Zpos mx * 2 ^ (ex + 149)) in *.
    destruct sx; cbn [cond_Zopp]; symmetry;
      [ apply Z.compare_lt_iff | apply Z.compare_gt_iff ]; lia.
  - pose proof (scaled_pos _ _ Vx). pose proof (scaled_pos _ _ Vy).
    assert (Hm : Pos.compare_cont Eq mx my = (Zpos mx ?= Zpos my))
      by reflexivity.
    assert (Hpow : 0 < 2 ^ (ey + 149)).
    { apply Z.pow_pos_nonneg; [ lia | ]. apply bounded_facts in Vy. lia. }
    destruct sx, sy; cbn [cond_Zopp]; symmetry.
    + rewrite Z.compare_opp.
      destruct (Z.compare_spec ex ey) as [ -> | Hlt | Hgt ].
      * rewrite Hm, <- Z.compare_antisym.
        now apply mul_compare_pos.
      * apply Z.compare_gt_iff. now apply scaled_lt.
      * apply Z.compare_lt_iff. now apply scaled_lt.
    + set (P := Zpos mx * 2 ^ (ex + 149)) in *.
      set (Q := Zpos my * 2 ^ (ey + 149)) in *.
      apply Z.compare_lt_iff. lia.
    + set (P := Zpos mx * 2 ^ (ex + 149)) in *.
      set (Q := Zpos my * 2 ^ (ey + 149)) in *.
      apply Z.compare_gt_iff. lia.
    + destruct (Z.compare_spec ex ey) as [ -> | Hlt | Hgt ].
      * rewrite Hm. now apply mul_compare_pos.
      * apply Z.compare_lt_iff. now apply scaled_lt.
      * apply Z.compare_gt_iff. now apply scaled_lt.
Qed.

(** *** The conversion of an integer *)

Lemma fexp_eq (e : Z) :
  fexp Float32.prec Float32.emax e = Z.max (e - 24) (-149).
Proof. reflexivity. Qed.

(** A mantissa already in canonical position is left alone. *)
Lemma binary_round_aux_canonical (s : bool) (m : positive) (e : Z) :
  bounded Float32.prec Float32.emax m e = true ->
  binary_round_aux Float32.prec Float32.emax s (Zpos m) e loc_Exact
    = S754_finite s m e.
Proof.
  unfold bounded, canonical_mantissa. rewrite andb_true_iff, Z.eqb_eq.
  intros [Hc He].
  unfold binary_round_aux, shr_fexp. cbn [Zdigits2].
  rewrite Hc, Z.sub_diag.
  cbn [shr shr_record_of_loc shr_m loc_of_shr_record round_nearest_even
       Zdigits2].
  rewrite Hc, Z.sub_diag. cbn [shr shr_record_of_loc shr_m].
  now rewrite He.
Qed.

(** The flags left by the shifts select the neighbour that [round_even]
    computes. *)
Lemma round_shifted (m k : Z) (mrs : shr_record) :
  0 <= k -> shifted m k mrs ->
  round_nearest_even (shr_m mrs) (loc_of_shr_record mrs)
    = Float32.round_even k m.
Proof.
  intros Hk (Hq & Hrest & Hr & Hs).
  assert (HT : 0 < 2 ^ k) by (apply Z.pow_pos_nonneg; lia).
  unfold Float32.round_even.
  assert (Ediv : m / 2 ^ k = shr_m mrs).
  { symmetry. apply Z.div_unique with (r := m - shr_m mrs * 2 ^ k); lia. }
  assert (Emod : m mod 2 ^ k = m - shr_m mrs * 2 ^ k).
  { symmetry. apply Z.mod_unique with (q := shr_m mrs); lia. }
  rewrite Ediv, Emod.
  destruct mrs as [q r s]; cbn [shr_m shr_r shr_s loc_of_shr_record] in *.
  set (rest := m - q * 2 ^ k) in *. set (T := 2 ^ k) in *.
  rewrite <- Z.negb_even.
  destruct r, s; cbn [round_nearest_even];
    destruct (Z.ltb_spec T (2 * rest)), (Z.eqb_spec (2 * rest) T),
      (Z.even q); cbn [andb negb]; try reflexivity; exfalso;
    repeat match goal with
           | H : true = true <-> _ |- _ => destruct H as [H _]; specialize (H eq_refl)
           | H : false = true <-> _ |- _ => destruct H as [_ H]
           end; try lia;
    try (assert (false = true) as F by (apply Hs; lia); discriminate F);
    try (assert (false = true) as F by (apply Hr; lia); discriminate F).
Qed.

Lemma binary_round_aux_finish (s : bool) (m e : Z) (l : location) :
  binary_round_aux Float32.prec Float32.emax s m e l =
    finish s
      (round_nearest_even
         (shr_m (fst (shr_fexp Float32.prec Float32.emax m e l)))
         (loc_of_shr_record (fst (shr_fexp Float32.prec Float32.emax m e l))))
      (snd (shr_fexp Float32.prec Float32.emax m e l)).
Proof.
  unfold binary_round_aux, finish.
  destruct (shr_fexp Float32.prec Float32.emax m e l) as [mrs' e'].
  reflexivity.
Qed.

Lemma finish_canonical (s : bool) (m : positive) (e : Z) :
  bounded Float32.prec Float32.emax m e = true ->
  finish s (Zpos m) e = S754_finite s m e.
Proof.
  unfold bounded, canonical_mantissa. rewrite andb_true_iff, Z.eqb_eq.
  intros [Hc He].
  unfold finish, shr_fexp. cbn [Zdigits2].
  rewrite Hc, Z.sub_diag. cbn [shr shr_record_of_loc shr_m].
  now rewrite He.
Qed.

(** A mantissa that rounding carried to [2^24] loses its last bit. *)
Lemma finish_carry (s : bool) (e : Z) :
  -149 <= e < 104 ->
  finish s 16777216 e = S754_finite s 8388608 (e + 1).
Proof.
  intros He. unfold finish, shr_fexp.
  change (Zdigits2 16777216) with 25. rewrite fexp_eq.
  replace (Z.max (25 + e - 24) (-149) - e) with 1 by lia.
  cbn [shr iter_pos shr_1 shr_record_of_loc shr_m].
  replace (e + 1 <=? Float32.emax - Float32.prec) with true; [ reflexivity | ].
  symmetry. apply Z.leb_le. unfold Float32.emax, Float32.prec. lia.
Qed.

Lemma bounded_normal (m : positive) (e : Z) :
  Zpos (digits2_pos m) = 24 -> -149 <= e <= 104 ->
  bounded Float32.prec Float32.emax m e = true.
Proof.
  intros Hd He. unfold bounded, canonical_mantissa.
  rewrite fexp_eq, Hd. apply andb_true_iff; split.
  - apply Z.eqb_eq. lia.
  - apply Z.leb_le. unfold Float32.emax, Float32.prec. lia.
Qed.

Lemma pow2_split (a b : Z) : 0 <= a -> 0 <= b -> 2 ^ (a + b) = 2 ^ a * 2 ^ b.
Proof. intros. now apply Z.pow_add_r. Qed.

(** Rounding a mantissa [p] with exponent [e] to the format, when the
    result is neither subnormal nor infinite: the magnitude [p * 2^e] keeps
    24 significant bits. *)
Lemma binary_round_spec (s : bool) (p : positive) (e : Z) :
  -149 <= e ->
  -125 <= Zpos (digits2_pos p) + e <= 127 ->
  normal (binary_round Float32.prec Float32.emax s p e) s
         (Float32.round_magnitude (Zpos p) * 2 ^ (e + 149)).
Proof.
  intros He Hde.
  pose proof (digits2_bounds p) as [Dlo Dhi].
  remember (Zpos (digits2_pos p)) as d eqn:Ed.
  assert (Hd : 1 <= d) by (subst d; lia).
  assert (Hlog : Z.log2 (Zpos p) = d - 1).
  { apply Z.log2_unique; [ lia | ].
    replace (Z.succ (d - 1)) with d by lia. lia. }
  unfold Float32.round_magnitude. rewrite Hlog.
  unfold binary_round, shl_align.
  rewrite fexp_eq, <- Ed.
  replace (Z.max (d + e - 24) (-149) - e) with (d - 24) by lia.
  replace (Z.max (d + e - 24) (-149)) with (d + e - 24) by lia.
  assert (HE : 0 < 2 ^ (e + 149)) by (apply Z.pow_pos_nonneg; lia).
  destruct (d - 24) as [ | n | n ] eqn:En.
  - (* exactly 24 bits *)
    replace (Z.max 0 (d - 1 - 23)) with 0 by lia.
    rewrite round_even_0.
    assert (B : bounded Float32.prec Float32.emax p e = true)
      by (apply bounded_normal; lia).
    rewrite (binary_round_aux_canonical s _ _ B).
    exists p, e. repeat split; [ assumption | ].
    change (2 ^ 0) with 1. ring.
  - (* more than 24 bits: the last [n] are rounded away *)
    replace (Z.max 0 (d - 1 - 23)) with (Zpos n) by lia.
    rewrite binary_round_aux_finish.
    assert (E1 : shr_fexp Float32.prec Float32.emax (Zpos p) e loc_Exact
                 = (iter_pos shr_1 n (shr_record_of_loc (Zpos p) loc_Exact),
                    e + Zpos n)).
    { unfold shr_fexp. cbn [Zdigits2].
      rewrite fexp_eq, <- Ed.
      replace (Z.max (d + e - 24) (-149) - e) with (Zpos n) by lia.
      reflexivity. }
    rewrite E1. cbn [fst snd].
    assert (Hsh : shifted (Zpos p) (Zpos n)
                    (iter_pos shr_1 n (shr_record_of_loc (Zpos p) loc_Exact))).
    { change (Zpos n) with (0 + Zpos n) at 1.
      apply iter_pos_invariant;
        [ intros; now apply shifted_step | lia | apply shifted_start; lia ]. }
    rewrite (round_shifted _ _ _ (Pos2Z.is_nonneg n) Hsh).
    pose proof (round_even_bounds (Zpos n) (Zpos p)) as [Rlo Rhi].
    assert (HT : 0 < 2 ^ Zpos n) by (apply Z.pow_pos_nonneg; lia).
    assert (P1 : 2 ^ (d - 1) = 8388608 * 2 ^ Zpos n).
    { replace (d - 1) with (23 + Zpos n) by lia.
      now rewrite pow2_split by lia. }
    assert (P2 : 2 ^ d = 16777216 * 2 ^ Zpos n).
    { replace d with (24 + Zpos n) at 1 by lia.
      now rewrite pow2_split by lia. }
    assert (Q1 : 8388608 <= Zpos p / 2 ^ Zpos n).
    { apply Z.div_le_lower_bound; [ assumption | ]. rewrite Z.mul_comm. lia. }
    assert (Q2 : Zpos p / 2 ^ Zpos n < 16777216).
    { apply Z.div_lt_upper_bound; [ assumption | ]. rewrite Z.mul_comm. lia. }
    destruct (Float32.round_even (Zpos n) (Zpos p)) as [ | q | q ] eqn:Eq;
      try lia.
    destruct (Z.eq_dec (Zpos q) 16777216) as [Ecarry | Hno].
    + rewrite Ecarry, finish_carry by lia.
      exists 8388608%positive, (e + Zpos n + 1). repeat split.
      * apply bounded_normal; [ reflexivity | lia ].
      * replace (e + Zpos n + 1 + 149) with (1 + Zpos n + (e + 149)) by lia.
        rewrite !pow2_split by lia. change (2 ^ 1) with 2. ring.
    + assert (B : bounded Float32.prec Float32.emax q (e + Zpos n) = true).
      { apply bounded_normal; [ | lia ].
        apply digits2_unique. change (2 ^ (24 - 1)) with 8388608.
        change (2 ^ 24) with 16777216. lia. }
      rewrite (finish_canonical s _ _ B).
      exists q, (e + Zpos n). repeat split; [ assumption | ].
      replace (e + Zpos n + 149) with (Zpos n + (e + 149)) by lia.
      rewrite pow2_split by lia. ring.
  - (* fewer than 24 bits: the mantissa is shifted left *)
    replace (Z.max 0 (d - 1 - 23)) with 0 by lia.
    rewrite round_even_0.
    pose proof (iter_xO p n) as Hm.
    assert (HT : 0 < 2 ^ Zpos n) by (apply Z.pow_pos_nonneg; lia).
    assert (P1 : 8388608 = 2 ^ (d - 1) * 2 ^ Zpos n).
    { rewrite <- pow2_split by lia. replace (d - 1 + Zpos n) with 23 by lia.
      reflexivity. }
    assert (P2 : 16777216 = 2 ^ d * 2 ^ Zpos n).
    { rewrite <- pow2_split by lia. replace (d + Zpos n) with 24 by lia.
      reflexivity. }
    assert (B : bounded Float32.prec Float32.emax (Pos.iter xO p n)
                  (d + e - 24) = true).
    { apply bounded_normal; [ | lia ].
      apply digits2_unique. change (2 ^ (24 - 1)) with 8388608.
      change (2 ^ 24) with 16777216. rewrite Hm, P1, P2.
      split; [ apply Z.mul_le_mono_nonneg_r | apply Z.mul_lt_mono_pos_r ];
        lia. }
    rewrite (binary_round_aux_canonical s _ _ B).
    exists (Pos.iter xO p n), (d + e - 24). repeat split; [ assumption | ].
    rewrite Hm. change (2 ^ 0) with 1.
    replace (e + 149) with (Zpos n + (d + e - 24 + 149)) by lia.
    rewrite (@pow2_split (Zpos n) (d + e - 24 + 149)) by lia. ring.
Qed.

(** The conversion of a positive integer below [2^32], with either sign
    attached. *)
Lemma binary_round_int (s : bool) (p : positive) :
  Zpos p < 2 ^ 32 ->
  normal (binary_round Float32.prec Float32.emax s p 0) s
         (Float32.round_magnitude (Zpos p) * 2 ^ 149).
Proof.
  intros Hp. apply (binary_round_spec s p 0); [ lia | ].
  pose proof (digits2_bounds p) as [Dlo _].
  split; [ lia | ].
  destruct (Z_le_gt_dec (Zpos (digits2_pos p)) 32); [ lia | exfalso ].
  assert (2 ^ 32 <= 2 ^ (Zpos (digits2_pos p) - 1))
    by (apply Z.pow_le_mono_r; lia).
  lia.
Qed.

(** Two normal numbers of the same sign and magnitude are the same. *)
Lemma normal_unique (x y : float) (s : bool) (v : Z) :
  normal x s v -> normal y s v -> x = y.
Proof.
  intros (m1 & e1 & -> & B1 & V1) (m2 & e2 & -> & B2 & V2).
  destruct (Z.lt_trichotomy e1 e2) as [Hlt | [Heq | Hgt]].
  - pose proof (scaled_lt _ _ _ _ B1 B2 Hlt). lia.
  - subst e2. f_equal. rewrite <- V2 in V1.
    apply Z.mul_cancel_r in V1; [ now injection V1 | ].
    apply bounded_facts in B1.
    assert (0 < 2 ^ (e1 + 149)) by (apply Z.pow_pos_nonneg; lia). lia.
  - pose proof (scaled_lt _ _ _ _ B2 B1 Hgt). lia.
Qed.

(** Every [int32] is converted to the number of the format that
    [round_int] denotes. *)
Lemma of_int_spec (z : Z) :
  Z.abs z < 2 ^ 32 ->
  valid_binary Float32.prec Float32.emax (Float32.of_int z) = true /\
  Float32.scaled (Float32.of_int z) = Some (Float32.round_int z * 2 ^ 149).
Proof.
  intros Hz. unfold Float32.of_int, Float32.round_int.
  destruct z as [ | p | p ]; cbn [binary_normalize Z.sgn Z.abs] in *.
  - split; reflexivity.
  - destruct (@binary_round_int false p Hz) as (m & e & -> & B & Hv).
    split; [ exact B | ]. unfold Float32.scaled, cond_Zopp.
    rewrite Hv. f_equal. ring.
  - destruct (@binary_round_int true p Hz) as (m & e & -> & B & Hv).
    split; [ exact B | ]. unfold Float32.scaled, cond_Zopp.
    rewrite Hv. f_equal. ring.
Qed.

(** Comparing two converted integers is comparing their roundings. *)
Lemma of_int_compare (a b : Z) :
  Z.abs a < 2 ^ 32 -> Z.abs b < 2 ^ 32 ->
  SFcompare (Float32.of_int a) (Float32.of_int b)
    = Some (Float32.round_int a ?= Float32.round_int b).
Proof.
  intros Ha Hb.
  destruct (@of_int_spec a Ha) as [Va Sa].
  destruct (@of_int_spec b Hb) as [Vb Sb].
  rewrite (@compare_scaled _ _ _ _ Va Vb Sa Sb).
  f_equal. apply mul_compare_pos. reflexivity.
Qed.

(** The conversion preserves the order, weakly. *)
Lemma of_int_le (a b : Z) :
  Z.abs a < 2 ^ 32 -> Z.abs b < 2 ^ 32 -> a <= b ->
  Float32.le (Float32.of_int a) (Float32.of_int b) = true.
Proof.
  intros Ha Hb Hab. unfold Float32.le, SFleb.
  rewrite (@of_int_compare a b Ha Hb).
  pose proof (@round_int_mono a b Hab) as Hr. apply Z.compare_le_iff in Hr.
  destruct (Float32.round_int a ?= Float32.round_int b);
    [ reflexivity | reflexivity | now elim Hr ].
Qed.

Lemma of_int_not_lt (a b : Z) :
  Z.abs a < 2 ^ 32 -> Z.abs b < 2 ^ 32 -> a <= b ->
  Float32.lt (Float32.of_int b) (Float32.of_int a) = false.
Proof.
  intros Ha Hb Hab.
  rewrite lt_negb_le by apply of_int_not_nan.
  now rewrite of_int_le.
Qed.

(** Up to [2^24] in magnitude the conversion is exact, and the order of the
    numbers is the order of the integers. *)
Lemma of_int_lt_exact (a b : Z) :
  Z.abs a <= 2 ^ 24 -> Z.abs b <= 2 ^ 24 ->
  Float32.lt (Float32.of_int a) (Float32.of_int b) = (a <? b).
Proof.
  intros Ha Hb. unfold Float32.lt, SFltb.
  assert (2 ^ 24 < 2 ^ 32) by reflexivity.
  rewrite of_int_compare by lia.
  rewrite !round_int_exact by assumption.
  unfold Z.ltb. destruct (a ?= b); reflexivity.
Qed.

Lemma of_int_le_exact (a b : Z) :
  Z.abs a <= 2 ^ 24 -> Z.abs b <= 2 ^ 24 ->
  Float32.le (Float32.of_int a) (Float32.of_int b) = (a <=? b).
Proof.
  intros Ha Hb. unfold Float32.le, SFleb.
  assert (2 ^ 24 < 2 ^ 32) by reflexivity.
  rewrite of_int_compare by lia.
  rewrite !round_int_exact by assumption.
  unfold Z.leb. destruct (a ?= b); reflexivity.
Qed.

(** Whatever their size, two converted [int32] compare as their roundings
    do. *)
Lemma of_int_lt_round (a b : Z) :
  Z.abs a < 2 ^ 32 -> Z.abs b < 2 ^ 32 ->
  Float32.lt (Float32.of_int a) (Float32.of_int b)
    = (Float32.round_int a <? Float32.round_int b).
Proof.
  intros Ha Hb. unfold Float32.lt, SFltb.
  rewrite of_int_compare by assumption.
  unfold Z.ltb. destruct (_ ?= _); reflexivity.
Qed.

Lemma of_int_le_round (a b : Z) :
  Z.abs a < 2 ^ 32 -> Z.abs b < 2 ^ 32 ->
  Float32.le (Float32.of_int a) (Float32.of_int b)
    = (Float32.round_int a <=? Float32.round_int b).
Proof.
  intros Ha Hb. unfold Float32.le, SFleb.
  rewrite of_int_compare by assumption.
  unfold Z.leb. destruct (_ ?= _); reflexivity.
Qed.

Lemma lt_value (x y : float) (u v : Z) :
  Float32.value x = Some u -> Float32.value y = Some v ->
  Float32.lt x y = (u <? v).
Proof.
  unfold Float32.value. intros Hx Hy.
  destruct (valid_binary Float32.prec Float32.emax x) eqn:Vx;
    [ | discriminate ].
  destruct (valid_binary Float32.prec Float32.emax y) eqn:Vy;
    [ | discriminate ].
  unfold Float32.lt, SFltb. rewrite (compare_scaled x y u v Vx Vy Hx Hy).
  unfold Z.ltb. destruct (u ?= v); reflexivity.
Qed.

Lemma of_int_value (z : Z) :
  Z.abs z <= 2 ^ 24 -> Float32.value (Float32.of_int z) = Some (z * 2 ^ 149).
Proof.
  intros Hz. assert (2 ^ 24 < 2 ^ 32) by reflexivity.
  destruct (of_int_spec z ltac:(lia)) as [V S].
  unfold Float32.value. rewrite V, S. now rewrite round_int_exact.
Qed.

(** *** Subtracting one *)

Lemma round_even_multiple (k c : Z) :
  0 <= k -> Float32.round_even k (c * 2 ^ k) = c.
Proof.
  intros Hk. assert (HT : 0 < 2 ^ k) by (apply Z.pow_pos_nonneg; lia).
  unfold Float32.round_even.
  rewrite Z.mod_mul, Z.div_mul by lia.
  destruct (Z.ltb_spec (2 ^ k) (2 * 0)); [ lia | ].
  destruct (Z.eqb_spec (2 * 0) (2 ^ k)); [ lia | reflexivity ].
Qed.

Lemma round_even_scale (k t a : Z) :
  0 <= k -> 0 <= t ->
  Float32.round_even (k + t) (a * 2 ^ t) = Float32.round_even k a.
Proof.
  intros Hk Ht.
  assert (HK : 0 < 2 ^ k) by (apply Z.pow_pos_nonneg; lia).
  assert (HT : 0 < 2 ^ t) by (apply Z.pow_pos_nonneg; lia).
  unfold Float32.round_even. rewrite pow2_split by lia.
  rewrite Z.div_mul_cancel_r, Z.mul_mod_distr_r by lia.
  set (q := a / 2 ^ k). set (r := a mod 2 ^ k).
  set (K := 2 ^ k) in *. set (T := 2 ^ t) in *.
  replace (2 * (r * T)) with (2 * r * T) by ring.
  assert (E1 : (K * T <? 2 * r * T) = (K <? 2 * r)).
  { destruct (Z.ltb_spec K (2 * r)) as [H | H].
    - apply Z.ltb_lt. now apply Z.mul_lt_mono_pos_r.
    - apply Z.ltb_ge. apply Z.mul_le_mono_nonneg_r; lia. }
  assert (E2 : (2 * r * T =? K * T) = (2 * r =? K)).
  { destruct (Z.eqb_spec (2 * r) K) as [H | H].
    - apply Z.eqb_eq. now rewrite H.
    - apply Z.eqb_neq. intros H'. apply Z.mul_cancel_r in H'; lia. }
  now rewrite E1, E2.
Qed.

(** Trailing zero bits do not change what a magnitude rounds to. *)
Lemma round_magnitude_scale (a t : Z) :
  0 < a -> 0 <= t ->
  Float32.round_magnitude (a * 2 ^ t) = Float32.round_magnitude a * 2 ^ t.
Proof.
  intros Ha Ht. unfold Float32.round_magnitude.
  rewrite Z.log2_mul_pow2 by lia.
  pose proof (Z.log2_nonneg a) as HL.
  destruct (Z_le_gt_dec (Z.log2 a) 23) as [Hsmall | Hbig].
  - replace (Z.max 0 (Z.log2 a - 23)) with 0 by lia.
    rewrite round_even_0. change (2 ^ 0) with 1.
    set (k := Z.max 0 (t + Z.log2 a - 23)).
    assert (Hk : 0 <= k <= t) by lia.
    replace (a * 2 ^ t) with (a * 2 ^ (t - k) * 2 ^ k).
    + rewrite round_even_multiple by lia.
      rewrite <- Z.mul_assoc, <- pow2_split by lia.
      replace (t - k + k) with t by lia. ring.
    + rewrite <- Z.mul_assoc, <- pow2_split by lia. do 2 f_equal. lia.
  - replace (Z.max 0 (t + Z.log2 a - 23)) with (Z.log2 a - 23 + t) by lia.
    replace (Z.max 0 (Z.log2 a - 23)) with (Z.log2 a - 23) by lia.
    rewrite round_even_scale, pow2_split by lia. ring.
Qed.

(** A mantissa with 23 trailing zero bits and exponent -23 is normalised
    like the integer it denotes. *)
Lemma normalize_scale (a : Z) :
  Z.abs a < 2 ^ 32 ->
  binary_normalize Float32.prec Float32.emax (a * 2 ^ 23) (-23) false
    = Float32.of_int a.
Proof.
  intros Ha. unfold Float32.of_int.
  assert (Hsize : forall p : positive,
             Zpos p < 2 ^ 32 -> 1 <= Zpos (digits2_pos p) <= 32).
  { intros p Hp. pose proof (digits2_bounds p) as [Dlo _].
    split; [ lia | ].
    destruct (Z_le_gt_dec (Zpos (digits2_pos p)) 32); [ lia | exfalso ].
    assert (2 ^ 32 <= 2 ^ (Zpos (digits2_pos p) - 1))
      by (apply Z.pow_le_mono_r; lia).
    lia. }
  assert (Hpos : forall (s : bool) (p : positive),
             Zpos p < 2 ^ 32 ->
             binary_round Float32.prec Float32.emax s (p * 8388608) (-23)
             = binary_round Float32.prec Float32.emax s p 0).
  { intros s p Hp. specialize (Hsize p Hp).
    apply normal_unique with (s := s)
      (v := Float32.round_magnitude (Zpos p) * 2 ^ 149).
    - replace (Float32.round_magnitude (Zpos p) * 2 ^ 149)
        with (Float32.round_magnitude (Zpos (p * 8388608)) * 2 ^ (-23 + 149)).
      + apply binary_round_spec; [ lia | ].
        assert (Zpos (digits2_pos (p * 8388608))
                = Zpos (digits2_pos p) + 23) as ->; [ | lia ].
        pose proof (digits2_bounds p) as [Dlo Dhi].
        apply digits2_unique. rewrite Pos2Z.inj_mul.
        change (Zpos 8388608) with (2 ^ 23).
        replace (Zpos (digits2_pos p) + 23 - 1)
          with (Zpos (digits2_pos p) - 1 + 23) by lia.
        rewrite !pow2_split by lia.
        split; [ apply Z.mul_le_mono_nonneg_r
               | apply Z.mul_lt_mono_pos_r ]; lia.
      + rewrite Pos2Z.inj_mul. change (Zpos 8388608) with (2 ^ 23).
        rewrite round_magnitude_scale by lia.
        change (-23 + 149) with 126.
        change (2 ^ 149) with (2 ^ 23 * 2 ^ 126). ring.
    - now apply binary_round_int. }
  destruct a as [ | p | p ]; cbn [Z.abs] in Ha.
  - reflexivity.
  - change (Zpos p * 2 ^ 23) with (Zpos (p * 8388608)).
    cbn [binary_normalize]. now apply Hpos.
  - change (Zneg p * 2 ^ 23) with (Zneg (p * 8388608)).
    cbn [binary_normalize]. now apply Hpos.
Qed.

Lemma shl_align_value (m : positive) (e e' : Z) :
  e' <= e -> Zpos (fst (shl_align m e e')) = Zpos m * 2 ^ (e - e').
Proof.
  intros He. unfold shl_align.
  destruct (e' - e) as [ | k | k ] eqn:Ek; cbn [fst].
  - replace (e - e') with 0 by lia. change (2 ^ 0) with 1. lia.
  - lia.
  - rewrite iter_xO. do 2 f_equal. lia.
Qed.

(** Subtracting one from a converted [int32] yields the conversion of the
    integer one below its rounding: the difference is rounded once. *)
Lemma sub_one_of_int (u : Z) :
  Z.abs u <= 2 ^ 31 ->
  Float32.sub (Float32.of_int u) (Float32.of_int 1)
    = Float32.of_int (Float32.round_int u - 1).
Proof.
  intros Hu.
  assert (Hmag : forall p : positive,
             Zpos p <= 2 ^ 31 ->
             0 < Float32.round_magnitude (Zpos p) <= 2 ^ 31).
  { intros p Hp. split; [ apply round_magnitude_pos; lia | ].
    apply Z.le_trans with (Float32.round_magnitude (2 ^ 31));
      [ apply round_magnitude_mono; lia | ].
    apply Z.leb_le. vm_compute. reflexivity. }
  assert (Hsub : forall (s : bool) (p : positive),
             Zpos p <= 2 ^ 31 ->
             Float32.sub (binary_round Float32.prec Float32.emax s p 0)
                         (S754_finite false 8388608 (-23))
             = binary_normalize Float32.prec Float32.emax
                 ((cond_Zopp s (Float32.round_magnitude (Zpos p)) - 1) * 2 ^ 23)
                 (-23) false).
  { intros s p Hp. specialize (Hmag p Hp).
    assert (Hp' : Zpos p < 2 ^ 32)
      by (change (2 ^ 31) with 2147483648 in Hp;
          change (2 ^ 32) with 4294967296; lia).
    destruct (binary_round_int s p Hp') as (m & e & -> & B & V).
    pose proof (bounded_facts m e B) as (Be & Bd & _).
    pose proof (digits2_bounds m) as [_ Dhi].
    assert (2 ^ Zpos (digits2_pos m) <= 2 ^ 24)
      by (apply Z.pow_le_mono_r; lia).
    assert (He : -23 <= e).
    { destruct (Z_le_gt_dec (-23) e) as [ | Hlow ]; [ assumption | exfalso ].
      assert (2 ^ (e + 149) <= 2 ^ 125) by (apply Z.pow_le_mono_r; lia).
      assert (0 < 2 ^ (e + 149)) by (apply Z.pow_pos_nonneg; lia).
      assert (Zpos m * 2 ^ (e + 149) < 2 ^ 24 * 2 ^ 125).
      { apply Z.le_lt_trans with (Zpos m * 2 ^ 125).
        - apply Z.mul_le_mono_nonneg_l; lia.
        - apply Z.mul_lt_mono_pos_r; [ reflexivity | lia ]. }
      change (2 ^ 24 * 2 ^ 125) with (1 * 2 ^ 149) in *.
      assert (1 * 2 ^ 149 <= Float32.round_magnitude (Zpos p) * 2 ^ 149)
        by (apply Z.mul_le_mono_nonneg_r; [ apply Z.pow_nonneg | ]; lia).
      lia. }
    assert (Hm : Zpos m * 2 ^ (e + 23)
                 = Float32.round_magnitude (Zpos p) * 2 ^ 23).
    { apply Z.mul_cancel_r with (p := 2 ^ 126); [ discriminate | ].
      rewrite <- !Z.mul_assoc, <- pow2_split by lia.
      replace (e + 23 + 126) with (e + 149) by lia.
      rewrite V. change (2 ^ 149) with (2 ^ 23 * 2 ^ 126). ring. }
    unfold Float32.sub. cbn [SFsub].
    replace (Z.min e (-23)) with (-23) by lia.
    rewrite !shl_align_value by lia.
    replace (e - -23) with (e + 23) by lia. change (-23 - -23) with 0.
    rewrite Hm. f_equal.
    destruct s; cbn [cond_Zopp]; change (2 ^ 0) with 1;
      change (2 ^ 23) with 8388608; ring. }
  change (Float32.of_int 1) with (S754_finite false 8388608 (-23)).
  destruct u as [ | p | p ]; cbn [Z.abs] in Hu.
  - reflexivity.
  - unfold Float32.of_int at 1. cbn [binary_normalize].
    rewrite (Hsub false p Hu). cbn [cond_Zopp].
    specialize (Hmag p Hu).
    unfold Float32.round_int. cbn [Z.sgn Z.abs]. rewrite Z.mul_1_l.
    apply normalize_scale.
    change (2 ^ 31) with 2147483648 in Hmag.
    change (2 ^ 32) with 4294967296. lia.
  - unfold Float32.of_int at 1. cbn [binary_normalize].
    rewrite (Hsub true p Hu). cbn [cond_Zopp].
    specialize (Hmag p Hu).
    unfold Float32.round_int. cbn [Z.sgn Z.abs].
    replace (-1 * Float32.round_magnitude (Zpos p))
      with (- Float32.round_magnitude (Zpos p)) by ring.
    apply normalize_scale.
    change (2 ^ 31) with 2147483648 in Hmag.
    change (2 ^ 32) with 4294967296. lia.
Qed.

(** *** Subtracting two converted integers *)

Lemma digits2_log2 (p : positive) :
  Zpos (digits2_pos p) = Z.log2 (Zpos p) + 1.
Proof.
  pose proof (digits2_bounds p) as [Dlo Dhi].
  assert (H : Z.log2 (Zpos p) = Zpos (digits2_pos p) - 1); [ | lia ].
  apply Z.log2_unique; [ lia | ].
  replace (Z.succ (Zpos (digits2_pos p) - 1))
    with (Zpos (digits2_pos p)) by lia.
  lia.
Qed.

(** A mantissa [M] with exponent [e] that denotes the integer [D] is
    normalised like [D]. *)
Lemma normalize_aligned (M D e : Z) :
  -149 <= e -> M * 2 ^ (e + 149) = D * 2 ^ 149 -> Z.abs D < 2 ^ 34 ->
  binary_normalize Float32.prec Float32.emax M e false = Float32.of_int D.
Proof.
  intros He HMD HD. unfold Float32.of_int.
  assert (HE : 0 < 2 ^ (e + 149)) by (apply Z.pow_pos_nonneg; lia).
  assert (HP : 0 < 2 ^ 149) by reflexivity.
  assert (Hpos : forall (s : bool) (pm pd : positive),
             Zpos pm * 2 ^ (e + 149) = Zpos pd * 2 ^ 149 ->
             Zpos pd < 2 ^ 34 ->
             binary_round Float32.prec Float32.emax s pm e
             = binary_round Float32.prec Float32.emax s pd 0).
  { intros s pm pd H Hd.
    assert (Hlog : Z.log2 (Zpos pm) + e = Z.log2 (Zpos pd)).
    { assert (H0 : Z.log2 (Zpos pm * 2 ^ (e + 149))
                   = Z.log2 (Zpos pd * 2 ^ 149)) by now rewrite H.
      rewrite (Z.log2_mul_pow2 (Zpos pm) (e + 149)) in H0 by lia.
      rewrite (Z.log2_mul_pow2 (Zpos pd) 149) in H0 by lia.
      lia. }
    assert (Hd34 : 0 <= Z.log2 (Zpos pd) < 34).
    { split; [ apply Z.log2_nonneg | apply Z.log2_lt_pow2; lia ]. }
    apply normal_unique with (s := s)
      (v := Float32.round_magnitude (Zpos pd) * 2 ^ 149).
    - replace (Float32.round_magnitude (Zpos pd) * 2 ^ 149)
        with (Float32.round_magnitude (Zpos pm) * 2 ^ (e + 149)).
      + apply binary_round_spec; [ lia | ]. rewrite digits2_log2. lia.
      + rewrite <- (round_magnitude_scale (Zpos pm) (e + 149)) by lia.
        rewrite <- (round_magnitude_scale (Zpos pd) 149) by lia.
        now rewrite H.
    - apply (binary_round_spec s pd 0); [ lia | ].
      rewrite digits2_log2. lia. }
  assert (Hs : Z.sgn M = Z.sgn D).
  { apply (f_equal Z.sgn) in HMD.
    rewrite !Z.sgn_mul, (Z.sgn_pos _ HE), (Z.sgn_pos _ HP), !Z.mul_1_r in HMD.
    exact HMD. }
  destruct M as [ | pm | pm ], D as [ | pd | pd ]; try discriminate Hs;
    cbn [binary_normalize Z.abs] in *.
  - reflexivity.
  - now apply Hpos.
  - apply Hpos; [ | assumption ].
    change (Zneg pm) with (- Zpos pm) in HMD.
    change (Zneg pd) with (- Zpos pd) in HMD.
    rewrite !Z.mul_opp_l in HMD. now apply Z.opp_inj.
Qed.

(** A rounded magnitude has at most 24 significant bits: rounding it again
    changes nothing. *)
Lemma round_magnitude_idem (a : Z) :
  0 < a ->
  Float32.round_magnitude (Float32.round_magnitude a)
    = Float32.round_magnitude a.
Proof.
  intros Ha. pose proof (Z.log2_spec a Ha) as [Hlo Hhi].
  pose proof (Z.log2_nonneg a) as HL.
  assert (Hexact : forall q, 0 < q <= 2 ^ 24 -> Float32.round_magnitude q = q).
  { intros q Hq. pose proof (round_int_exact q) as H.
    unfold Float32.round_int in H.
    rewrite Z.sgn_pos, Z.abs_eq, Z.mul_1_l in H by lia. apply H. lia. }
  unfold Float32.round_magnitude at 2 3.
  set (L := Z.log2 a) in *. set (k := Z.max 0 (L - 23)).
  assert (Hk : 0 <= k <= L) by lia.
  assert (HT : 0 < 2 ^ k) by (apply Z.pow_pos_nonneg; lia).
  pose proof (round_even_bounds k a) as [Rlo Rhi].
  replace (Z.succ L) with (L + 1) in Hhi by lia.
  assert (Q1 : 1 <= a / 2 ^ k).
  { apply Z.div_le_lower_bound; [ assumption | ].
    assert (2 ^ k <= 2 ^ L) by (apply Z.pow_le_mono_r; lia). lia. }
  assert (Q2 : a / 2 ^ k < 2 ^ 24).
  { apply Z.div_lt_upper_bound; [ assumption | ].
    rewrite <- Z.pow_add_r by lia.
    apply Z.lt_le_trans with (2 ^ (L + 1)); [ assumption | ].
    apply Z.pow_le_mono_r; lia. }
  rewrite round_magnitude_scale by lia.
  rewrite Hexact by lia. reflexivity.
Qed.

Lemma round_magnitude_int32 (a : Z) :
  0 < a <= 2 ^ 31 -> 0 < Float32.round_magnitude a <= 2 ^ 31.
Proof.
  intros [Ha Hle]. split; [ now apply round_magnitude_pos | ].
  apply Z.le_trans with (Float32.round_magnitude (2 ^ 31));
    [ now apply round_magnitude_mono | ].
  apply Z.leb_le. vm_compute. reflexivity.
Qed.

(** The conversion of an [int32] other than zero: a normal number with the
    sign of the integer and its rounded magnitude. *)
Lemma of_int_repr (z : Z) :
  z <> 0 -> Z.abs z <= 2 ^ 31 ->
  exists (s : bool) (R : Z),
    normal (Float32.of_int z) s (R * 2 ^ 149) /\
    Float32.round_int z = cond_Zopp s R /\
    0 < R <= 2 ^ 31 /\ Float32.round_magnitude R = R.
Proof.
  intros Hz Ha. unfold Float32.of_int, Float32.round_int.
  assert (H32 : 2 ^ 31 < 2 ^ 32) by reflexivity.
  destruct z as [ | p | p ]; [ contradiction | | ];
    cbn [binary_normalize Z.sgn Z.abs] in *.
  - exists false, (Float32.round_magnitude (Zpos p)).
    split; [ apply binary_round_int; lia | ].
    split; [ cbn [cond_Zopp]; ring | ].
    split; [ now apply round_magnitude_int32
           | now apply round_magnitude_idem ].
  - exists true, (Float32.round_magnitude (Zpos p)).
    split; [ apply binary_round_int; lia | ].
    split; [ cbn [cond_Zopp]; ring | ].
    split; [ now apply round_magnitude_int32
           | now apply round_magnitude_idem ].
Qed.

Lemma round_int_0 : Float32.round_int 0 = 0.
Proof. reflexivity. Qed.

(** Converting the rounding of an [int32] gives the same number as
    converting the [int32]. *)
Lemma of_int_round (z : Z) :
  Z.abs z <= 2 ^ 31 -> Float32.of_int (Float32.round_int z) = Float32.of_int z.
Proof.
  intros Ha. destruct (Z.eq_dec z 0) as [-> | Hz]; [ reflexivity | ].
  destruct (of_int_repr z Hz Ha) as (s & R & N & -> & HR & Hidem).
  assert (H32 : 2 ^ 31 < 2 ^ 32) by reflexivity.
  apply normal_unique with (s := s) (v := R * 2 ^ 149); [ | exact N ].
  rewrite <- Hidem at 2.
  destruct R as [ | r | r ]; try lia.
  destruct s; cbn [cond_Zopp Z.opp]; unfold Float32.of_int;
    cbn [binary_normalize]; apply binary_round_int; lia.
Qed.

Lemma round_int_opp (z : Z) : Float32.round_int (- z) = - Float32.round_int z.
Proof.
  unfold Float32.round_int. rewrite Z.sgn_opp, Z.abs_opp. ring.
Qed.

Lemma of_int_opp (z : Z) :
  z <> 0 -> Z.abs z <= 2 ^ 31 ->
  Float32.of_int (- z) = SFopp (Float32.of_int z).
Proof.
  intros Hz Ha.
  assert (H32 : 2 ^ 31 < 2 ^ 32) by reflexivity.
  assert (Hn : forall (s : bool) (p : positive),
             Zpos p <= 2 ^ 31 ->
             binary_round Float32.prec Float32.emax (negb s) p 0
             = SFopp (binary_round Float32.prec Float32.emax s p 0)).
  { intros s p Hp.
    destruct (binary_round_int s p ltac:(lia)) as (m & e & E & B & V).
    rewrite E. cbn [SFopp].
    apply normal_unique with (s := negb s)
      (v := Float32.round_magnitude (Zpos p) * 2 ^ 149).
    - apply binary_round_int. lia.
    - exists m, e. repeat split; assumption. }
  unfold Float32.of_int.
  destruct z as [ | p | p ]; [ contradiction | | ];
    cbn [Z.opp Z.abs binary_normalize] in *.
  - exact (Hn false p Ha).
  - exact (Hn true p Ha).
Qed.

(** The difference of two converted [int32] is the conversion of the
    difference of their roundings: it is rounded once. *)
Lemma sub_of_int (a b : Z) :
  Z.abs a <= 2 ^ 31 -> Z.abs b <= 2 ^ 31 ->
  Float32.sub (Float32.of_int a) (Float32.of_int b)
    = Float32.of_int (Float32.round_int a - Float32.round_int b).
Proof.
  intros Ha Hb.
  destruct (Z.eq_dec b 0) as [-> | Hbz].
  { rewrite round_int_0, Z.sub_0_r, of_int_round by assumption.
    change (Float32.of_int 0) with (S754_zero false). unfold Float32.sub.
    destruct (Float32.of_int a) as [ [ | ] | [ | ] | | ]; reflexivity. }
  destruct (Z.eq_dec a 0) as [-> | Haz].
  { rewrite round_int_0, Z.sub_0_l, <- round_int_opp.
    rewrite of_int_round by (rewrite Z.abs_opp; assumption).
    rewrite of_int_opp by assumption.
    change (Float32.of_int 0) with (S754_zero false). unfold Float32.sub.
    destruct (of_int_repr b Hbz Hb) as (s & R & (m & e & -> & _) & _).
    reflexivity. }
  destruct (of_int_repr a Haz Ha)
    as (sa & Ra & (ma & ea & -> & Ba & Va) & -> & HRa & _).
  destruct (of_int_repr b Hbz Hb)
    as (sb & Rb & (mb & eb & -> & Bb & Vb) & -> & HRb & _).
  pose proof (bounded_facts ma ea Ba) as (Bea & _).
  pose proof (bounded_facts mb eb Bb) as (Beb & _).
  unfold Float32.sub. cbn [SFsub].
  set (ez := Z.min ea eb).
  assert (Hez : -149 <= ez /\ ez <= ea /\ ez <= eb) by (unfold ez; lia).
  rewrite !shl_align_value by lia.
  assert (Ea : Zpos ma * 2 ^ (ea - ez) * 2 ^ (ez + 149) = Ra * 2 ^ 149).
  { rewrite <- Z.mul_assoc, <- pow2_split by lia.
    replace (ea - ez + (ez + 149)) with (ea + 149) by lia. exact Va. }
  assert (Eb : Zpos mb * 2 ^ (eb - ez) * 2 ^ (ez + 149) = Rb * 2 ^ 149).
  { rewrite <- Z.mul_assoc, <- pow2_split by lia.
    replace (eb - ez + (ez + 149)) with (eb + 149) by lia. exact Vb. }
  apply normalize_aligned; [ lia | | ].
  - generalize dependent (Zpos ma * 2 ^ (ea - ez)).
    generalize dependent (Zpos mb * 2 ^ (eb - ez)).
    generalize (2 ^ (ez + 149)) (2 ^ 149).
    intros Q P B EB A EA.
    destruct sa, sb; cbn [cond_Zopp]; lia.
  - change (2 ^ 31) with 2147483648 in *.
    change (2 ^ 34) with 17179869184.
    destruct sa, sb; cbn [cond_Zopp]; lia.
Qed.

(** Up to [2^24] in magnitude, operands and result, the difference is
    exact. *)
Lemma sub_of_int_exact (a b : Z) :
  Z.abs a <= 2 ^ 24 -> Z.abs b <= 2 ^ 24 -> Z.abs (a - b) <= 2 ^ 24 ->
  Float32.sub (Float32.of_int a) (Float32.of_int b) = Float32.of_int (a - b).
Proof.
  intros Ha Hb Hab.
  assert (H : 2 ^ 24 <= 2 ^ 31) by discriminate.
  rewrite sub_of_int by lia.
  now rewrite !round_int_exact by assumption.
Qed.

(** *** Converting back to [int32] *)

(** Truncating a converted [int32] finds the rounding of the integer. *)
Lemma truncate_of_int (z : Z) :
  Z.abs z <= 2 ^ 31 ->
  Float32.truncate (Float32.of_int z) = Some (Float32.round_int z).
Proof.
  intros Ha. destruct (Z.eq_dec z 0) as [-> | Hz]; [ reflexivity | ].
  destruct (of_int_repr z Hz Ha)
    as (s & R & (m & e & -> & B & V) & -> & HR & _).
  pose proof (bounded_facts m e B) as (Be & _).
  assert (HP : 0 < 2 ^ 149) by reflexivity.
  unfold Float32.truncate. do 2 f_equal.
  destruct e as [ | p | p ].
  - change (2 ^ (0 + 149)) with (2 ^ 149) in V.
    apply Z.mul_cancel_r in V; lia.
  - rewrite pow2_split, Z.mul_assoc in V by lia.
    apply Z.mul_cancel_r in V; lia.
  - assert (HQ : 0 < 2 ^ (Zneg p + 149)) by (apply Z.pow_pos_nonneg; lia).
    assert (HT : 0 < 2 ^ Zpos p) by (apply Z.pow_pos_nonneg; lia).
    assert (E : 2 ^ 149 = 2 ^ Zpos p * 2 ^ (Zneg p + 149)).
    { rewrite <- pow2_split by lia. f_equal. lia. }
    rewrite E, Z.mul_assoc in V. apply Z.mul_cancel_r in V; [ | lia ].
    rewrite V. apply Z.div_mul. lia.
Qed.

(** An integer of at most 24 significant bits survives the conversion to
    single precision and back. *)
Lemma to_int_of_int (z : Z) :
  Z.abs z <= 2 ^ 24 -> Float32.to_int (Float32.of_int z) = Some z.
Proof.
  intros Hz. assert (H : 2 ^ 24 <= 2 ^ 31) by discriminate.
  unfold Float32.to_int. rewrite truncate_of_int by lia.
  rewrite round_int_exact by assumption.
  replace (Int32.in_range z) with true; [ reflexivity | ].
  symmetry. apply Int32Facts.in_range_iff.
  unfold Int32.min_signed, Int32.max_signed.
  change (2 ^ 24) with 16777216 in Hz. lia.
Qed.

(** *** The order on one number, and a number against two integers *)

Lemma le_refl (x : float) : Float32.is_nan x = false -> Float32.le x x = true.
Proof.
  intros Hx. unfold Float32.le, SFleb.
  destruct x as [ s | s | | s m e ]; try discriminate Hx.
  - reflexivity.
  - destruct s; reflexivity.
  - destruct s; cbn [SFcompare]; rewrite Z.compare_refl;
      change (Pos.compare_cont Eq m m) with (Pos.compare m m);
      rewrite Pos.compare_refl; reflexivity.
Qed.

Lemma round_int_idem (z : Z) :
  Float32.round_int (Float32.round_int z) = Float32.round_int z.
Proof.
  unfold Float32.round_int.
  destruct z as [ | p | p ]; [ reflexivity | | ]; cbn [Z.sgn Z.abs].
  - pose proof (round_magnitude_pos (Zpos p) ltac:(lia)) as HR.
    rewrite Z.mul_1_l, Z.sgn_pos, Z.abs_eq, Z.mul_1_l by lia.
    apply round_magnitude_idem. lia.
  - pose proof (round_magnitude_pos (Zpos p) ltac:(lia)) as HR.
    replace (-1 * Float32.round_magnitude (Zpos p))
      with (- Float32.round_magnitude (Zpos p)) by ring.
    rewrite Z.sgn_opp, Z.abs_opp, Z.sgn_pos, Z.abs_eq by lia.
    rewrite round_magnitude_idem by lia. ring.
Qed.

Lemma round_int_int32 (z : Z) :
  Z.abs z <= 2 ^ 31 -> Z.abs (Float32.round_int z) <= 2 ^ 31.
Proof.
  intros Hz. unfold Float32.round_int.
  destruct z as [ | p | p ]; cbn [Z.sgn Z.abs] in *.
  - discriminate.
  - pose proof (round_magnitude_int32 (Zpos p) ltac:(lia)). lia.
  - pose proof (round_magnitude_int32 (Zpos p) ltac:(lia)). lia.
Qed.

(** The two comparisons that the point test makes on one axis, for a
    number of the format other than NaN and two integer bounds that single
    precision holds exactly: one of them is true exactly when the number is
    outside the interval. *)
Lemma outside_interval (x : float) (lo hi : Z) :
  valid_binary Float32.prec Float32.emax x = true ->
  Float32.is_nan x = false ->
  Z.abs lo <= 2 ^ 24 -> Z.abs hi <= 2 ^ 24 ->
  Float32.lt x (Float32.of_int lo) || Float32.lt (Float32.of_int hi) x
    = negb (Float32.in_interval lo hi x).
Proof.
  intros V N Hlo Hhi.
  pose proof (of_int_value lo Hlo) as Vlo.
  pose proof (of_int_value hi Hhi) as Vhi.
  unfold Float32.in_interval.
  destruct (Float32.scaled x) as [ v | ] eqn:S.
  - assert (Vx : Float32.value x = Some v)
      by (unfold Float32.value; now rewrite V).
    rewrite (lt_value _ _ _ _ Vx Vlo), (lt_value _ _ _ _ Vhi Vx).
    rewrite !Z.leb_antisym.
    destruct (v <? lo * 2 ^ 149), (hi * 2 ^ 149 <? v); reflexivity.
  - revert Vlo Vhi.
    generalize (Float32.of_int lo) (Float32.of_int hi). intros a b Va Vb.
    unfold Float32.value in Va, Vb.
    destruct x as [ s | s | | s m e ]; try discriminate.
    destruct a as [ sa | sa | | sa ma ea ];
      cbn [valid_binary Float32.scaled] in Va; try discriminate Va;
      destruct b as [ sb | sb | | sb mb eb ];
      cbn [valid_binary Float32.scaled] in Vb; try discriminate Vb;
      destruct s; reflexivity.
Qed.

End Float32Facts.

(** Unfolds the [int32] operators and hands the resulting congruences to
    linear arithmetic. *)
Ltac int32_arith :=
  unfold Int32.add, Int32.sub, Int32.mul, Int32.neg, Int32.div, Int32.wrap,
    Int32.min_signed, Int32.max_signed, Int32.modulus in *;
  Z.div_mod_to_equations; lia.

Ltac region_fields r H :=
  destruct r as [rx ry rz rw rh rd];
  unfold FVoreealRegion.well_typed in H; cbn in H;
  do 5 (apply andb_prop in H; destruct H as [H ?]);
  repeat match goal with
         | I : Int32.in_range _ = true |- _ =>
             apply Int32Facts.in_range_iff in I
         end.

Import FVoreealRegion.

(** ** Growing and shifting *)

(** C6. Growing a region by [n] on every side and then by [-n] gives back
    the region it started from: the three coordinates of the origin and the
    three extents are restored, for every [int32] amount, the intermediate
    results wrapping around when they leave the range of the type. *)
Theorem GrowUnified_inverse (r : FVoreealRegion.t) (n : int32) :
  well_typed r = true ->
  Int32.in_range n = true ->
  GrowUnified (Int32.neg n) (GrowUnified n r) = r.
Proof.
  intros Hr Hn. region_fields r Hr. apply Int32Facts.in_range_iff in Hn.
  unfold GrowUnified; cbn [X Y Z Width Height Depth].
  f_equal; int32_arith.
Qed.

Lemma GrowUnified_inverse_witness :
  well_typed (Make 2 3 4 5 6 7) = true /\
  Int32.in_range (-2147483648) = true /\
  GrowUnified (Int32.neg (-2147483648))
    (GrowUnified (-2147483648) (Make 2 3 4 5 6 7)) = Make 2 3 4 5 6 7.
Proof.
  split; [reflexivity | split; [reflexivity | ]].
  apply (GrowUnified_inverse (Make 2 3 4 5 6 7) (-2147483648)); reflexivity.
Defined.

(** C8. [ShiftUpperCorner] adds the shift to the origin and subtracts it
    from the extent, so that the upper corner origin + extent stays where
    it was; [ShiftLowerCorner] adds the shift to the extent alone and
    leaves the origin, the lower corner, where it was. *)
Theorem Shift_corners_frame (r : FVoreealRegion.t) (dx dy dz : int32) :
  ShiftUpperCorner dx dy dz r =
    Make (Int32.add (X r) dx) (Int32.add (Y r) dy) (Int32.add (Z r) dz)
         (Int32.sub (Width r) dx) (Int32.sub (Height r) dy)
         (Int32.sub (Depth r) dz) /\
  GetUpperInt (ShiftUpperCorner dx dy dz r) = GetUpperInt r /\
  GetUpper (ShiftUpperCorner dx dy dz r) = GetUpper r /\
  ShiftLowerCorner dx dy dz r =
    Make (X r) (Y r) (Z r)
         (Int32.add (Width r) dx) (Int32.add (Height r) dy)
         (Int32.add (Depth r) dz) /\
  GetLowerInt (ShiftLowerCorner dx dy dz r) = GetLowerInt r /\
  GetLower (ShiftLowerCorner dx dy dz r) = GetLower r.
Proof.
  assert (Hup : forall a b d,
             Int32.add (Int32.add a d) (Int32.sub b d) = Int32.add a b).
  { intros a b d. unfold Int32.add, Int32.sub.
    destruct (Int32Facts.wrap_repr (a + d)) as [k1 ->].
    destruct (Int32Facts.wrap_repr (b - d)) as [k2 ->].
    apply Int32Facts.wrap_congr with (k := k1 + k2). ring. }
  destruct r as [rx ry rz rw rh rd].
  unfold ShiftUpperCorner, ShiftLowerCorner, GetUpperInt, GetLowerInt,
    GetUpper, GetLower; cbn [X Y Z Width Height Depth].
  rewrite (Hup rx rw dx), (Hup ry rh dy), (Hup rz rd dz).
  repeat (split; [ reflexivity | ]). reflexivity.
Qed.

(** ** Corners and centre *)

(** C7. The region with origin (2,3,4) and extent (5,6,7) has [Min]
    (2,3,4), [Max] (7,9,11) and centre (4,6,7), all three exact in single
    precision.  In general the centre is origin + extent/2 on each axis,
    the quotient being the integer one that truncates toward zero: an
    extent of -5 contributes -2. *)
Theorem Min_Max_GetCenter_scenario :
  Min (Make 2 3 4 5 6 7) = FVector.of_ints 2 3 4 /\
  Max (Make 2 3 4 5 6 7) = FVector.of_ints 7 9 11 /\
  GetCenter (Make 2 3 4 5 6 7) = FVector.of_ints 4 6 7 /\
  FVector.of_ints 2 3 4 =
    FVector.Make (S754_finite false 8388608 (-22))    (* 2 = 2^23 * 2^-22 *)
                 (S754_finite false 12582912 (-22))   (* 3 *)
                 (S754_finite false 8388608 (-21)) /\ (* 4 *)
  FVector.of_ints 7 9 11 =
    FVector.Make (S754_finite false 14680064 (-21))   (* 7 *)
                 (S754_finite false 9437184 (-20))    (* 9 *)
                 (S754_finite false 11534336 (-20)) /\ (* 11 *)
  FVector.of_ints 4 6 7 =
    FVector.Make (S754_finite false 8388608 (-21))    (* 4 *)
                 (S754_finite false 12582912 (-21))   (* 6 *)
                 (S754_finite false 14680064 (-21)) /\ (* 7 *)
  (forall r : FVoreealRegion.t,
      GetCenter r =
        FVector.of_ints (Int32.add (X r) (Int32.wrap (Z.quot (Width r) 2)))
                        (Int32.add (Y r) (Int32.wrap (Z.quot (Height r) 2)))
                        (Int32.add (Z r) (Int32.wrap (Z.quot (Depth r) 2)))) /\
  (forall w : int32,
      Int32.in_range w = true -> Int32.div w 2 = Z.quot w 2) /\
  GetCenter (Make 0 0 0 (-5) (-7) (-1)) = FVector.of_ints (-2) (-3) 0.
Proof.
  do 6 (split; [ vm_compute; reflexivity | ]).
  split; [ intros r; reflexivity | ].
  split; [ | vm_compute; reflexivity ].
  intros w Hw. apply Int32Facts.in_range_iff in Hw.
  unfold Int32.div. apply Int32Facts.wrap_small, Int32Facts.in_range_iff.
  unfold Int32.min_signed, Int32.max_signed in *.
  Z.quot_rem_to_equations. lia.
Qed.

(** ** Classification of two regions *)

(** The shape of [Contains(Region1, Region2)]: a disjunction of six
    comparisons guards the first answer, and no later branch repeats it. *)
Lemma first_branch_iff (b1 b2 b3 b4 b5 b6 c : bool) :
  (if b1 || b2 || b3 || b4 || b5 || b6 then EContainmentType.Disjoint
   else if c then EContainmentType.Contains
        else EContainmentType.Intersects) = EContainmentType.Disjoint <->
  (b1 = true \/ b2 = true \/ b3 = true \/ b4 = true \/ b5 = true \/
   b6 = true).
Proof.
  destruct b1, b2, b3, b4, b5, b6, c; cbn; split; intros H;
    try reflexivity; try discriminate; try tauto;
    repeat (destruct H as [H | H]; try discriminate).
Qed.

(** Between regions whose corners single precision holds exactly, the
    comparisons of the corners are comparisons of integers. *)
Lemma classify_exact (A B : FVoreealRegion.t) :
  corners_exact A = true -> corners_exact B = true ->
  Contains A B = classify_corners A B.
Proof.
  intros HA HB.
  destruct A as [ax ay az aw ah ad], B as [bx by_ bz bw bh bd].
  unfold corners_exact in HA, HB; cbn [X Y Z Width Height Depth] in HA, HB.
  do 5 (apply andb_prop in HA; destruct HA as [HA ?]).
  do 5 (apply andb_prop in HB; destruct HB as [HB ?]).
  repeat match goal with
         | H : (_ <=? _) = true |- _ => apply Z.leb_le in H
         end.
  change 16777216 with (2 ^ 24) in *.
  assert (E : forall a w, Z.abs (a + w) <= 2 ^ 24 -> Int32.add a w = a + w).
  { intros a w H'. apply Int32Facts.wrap_small, Int32Facts.in_range_iff.
    unfold Int32.min_signed, Int32.max_signed.
    change (2 ^ 24) with 16777216 in H'. lia. }
  unfold Contains, classify_corners, GetLower, GetUpper, FVector.of_ints,
    Float32.gt, Float32.ge;
    cbn [X Y Z Width Height Depth FVector.X FVector.Y FVector.Z].
  rewrite !E by assumption.
  rewrite !Float32Facts.of_int_lt_exact by assumption.
  rewrite !Float32Facts.of_int_le_exact by assumption.
  reflexivity.
Qed.




(** C10. [Intersect] is not symmetric.  The box with origin (0,0,0) and
    extent (10,10,10) contains the box with origin (2,2,2) and extent
    (3,3,3), hence does not "intersect" it, while the small box, asked
    about the large one, answers [Intersects]. *)
Theorem Intersect_not_symmetric :
  Contains (Make 0 0 0 10 10 10) (Make 2 2 2 3 3 3) = EContainmentType.Contains /\
  Intersect (Make 0 0 0 10 10 10) (Make 2 2 2 3 3 3) = false /\
  Contains (Make 2 2 2 3 3 3) (Make 0 0 0 10 10 10) = EContainmentType.Intersects /\
  Intersect (Make 2 2 2 3 3 3) (Make 0 0 0 10 10 10) = true /\
  ~ (forall A B : FVoreealRegion.t, Intersect A B = Intersect B A).
Proof.
  do 4 (split; [ vm_compute; reflexivity | ]).
  intros H. specialize (H (Make 0 0 0 10 10 10) (Make 2 2 2 3 3 3)).
  vm_compute in H. discriminate.
Qed.

(** ** The two-corner constructors *)

(** C4. Built from two corners, a region takes the lower one as its origin
    and lower - upper, axis by axis, as its extent (the [int32] difference
    for [FIntVector] corners; for [FVector] corners the single-precision
    difference, and, as for the origin, its conversion to [int32]).
    Nothing is validated and no sign is corrected: the corners (0,0,0) and
    (1,1,1) give the extent (-1,-1,-1). *)
Theorem two_corner_constructor :
  (forall Lower Upper : FIntVector.t,
      of_int_corners Lower Upper =
        Make (FIntVector.X Lower) (FIntVector.Y Lower) (FIntVector.Z Lower)
             (Int32.sub (FIntVector.X Lower) (FIntVector.X Upper))
             (Int32.sub (FIntVector.Y Lower) (FIntVector.Y Upper))
             (Int32.sub (FIntVector.Z Lower) (FIntVector.Z Upper))) /\
  (forall a b : int32,
      Int32.in_range (a - b) = true -> Int32.sub a b = a - b) /\
  (forall (Lower Upper : FVector.t) (r : FVoreealRegion.t),
      of_corners Lower Upper = Some r <->
      (Float32.to_int (FVector.X Lower) = Some (X r) /\
       Float32.to_int (FVector.Y Lower) = Some (Y r) /\
       Float32.to_int (FVector.Z Lower) = Some (Z r) /\
       Float32.to_int (Float32.sub (FVector.X Lower) (FVector.X Upper))
         = Some (Width r) /\
       Float32.to_int (Float32.sub (FVector.Y Lower) (FVector.Y Upper))
         = Some (Height r) /\
       Float32.to_int (Float32.sub (FVector.Z Lower) (FVector.Z Upper))
         = Some (Depth r))) /\
  of_int_corners (FIntVector.Make 0 0 0) (FIntVector.Make 1 1 1)
    = Make 0 0 0 (-1) (-1) (-1) /\
  of_corners (FVector.of_ints 0 0 0) (FVector.of_ints 1 1 1)
    = Some (Make 0 0 0 (-1) (-1) (-1)).
Proof.
  split; [ reflexivity | ].
  split; [ intros a b H; apply Int32Facts.wrap_small, H | ].
  split; [ | split; vm_compute; reflexivity ].
  intros Lower Upper r. unfold of_corners.
  generalize (Float32.to_int (FVector.X Lower))
             (Float32.to_int (FVector.Y Lower))
             (Float32.to_int (FVector.Z Lower))
             (Float32.to_int (Float32.sub (FVector.X Lower) (FVector.X Upper)))
             (Float32.to_int (Float32.sub (FVector.Y Lower) (FVector.Y Upper)))
             (Float32.to_int (Float32.sub (FVector.Z Lower) (FVector.Z Upper))).
  intros ox oy oz ow oh od. destruct r as [rx ry rz rw rh rd]. cbn.
  split.
  - destruct ox, oy, oz, ow, oh, od; try discriminate.
    intros H. injection H as -> -> -> -> -> ->. repeat split.
  - intros (-> & -> & -> & -> & -> & ->). reflexivity.
Qed.

(** ** Conversion to PolyVox and back *)

(** Whatever the region, the round trip through [PolyVox::Region] keeps
    the origin and returns every extent one larger. *)
Lemma PolyVox_round_trip_extent (r : FVoreealRegion.t) :
  well_typed r = true ->
  Conversion.of_PolyVox (Conversion.to_PolyVox r) =
    Make (X r) (Y r) (Z r)
         (Int32.add (Width r) 1) (Int32.add (Height r) 1)
         (Int32.add (Depth r) 1).
Proof.
  intros Hr. region_fields r Hr.
  unfold Conversion.of_PolyVox, Conversion.to_PolyVox,
    PolyVox.Region.getWidthInVoxels, PolyVox.Region.getHeightInVoxels,
    PolyVox.Region.getDepthInVoxels, PolyVox.Region.getWidthInCells,
    PolyVox.Region.getHeightInCells, PolyVox.Region.getDepthInCells,
    PolyVox.Region.getLowerX, PolyVox.Region.getLowerY,
    PolyVox.Region.getLowerZ.
  cbn. f_equal; int32_arith.
Qed.

(** C3. The unit box at the origin does not survive the round trip:
    converted to [PolyVox::Region] it has the corners (0,0,0) and (1,1,1),
    which PolyVox measures as two voxels on every axis, and the region
    built back from it has the extent (2,2,2). *)
Theorem PolyVox_round_trip_unit_box :
  Conversion.to_PolyVox (Make 0 0 0 1 1 1) = PolyVox.Region.Make 0 0 0 1 1 1 /\
  PolyVox.Region.getWidthInVoxels (PolyVox.Region.Make 0 0 0 1 1 1) = 2 /\
  Conversion.of_PolyVox (Conversion.to_PolyVox (Make 0 0 0 1 1 1))
    = Make 0 0 0 2 2 2 /\
  Conversion.of_PolyVox (Conversion.to_PolyVox (Make 0 0 0 1 1 1))
    <> Make 0 0 0 1 1 1.
Proof.
  repeat split; try reflexivity. vm_compute. discriminate.
Qed.

(** ** Persistence *)

Module PersistenceFacts.

(** Four bytes read back as the [int32] they were written from. *)
Lemma combine_split (v : int32) :
  Int32.in_range v = true -> Int32.wrap (le_combine (le_split 4 v)) = v.
Proof.
  intros Hv. apply Int32Facts.in_range_iff in Hv.
  rewrite le_combine_split. change (2 ^ (Z.of_nat 4 * 8)) with Int32.modulus.
  unfold Int32.wrap, Int32.min_signed, Int32.max_signed, Int32.modulus in *.
  Z.div_mod_to_equations. lia.
Qed.

Lemma save_int32 (v : int32) (bs : list byte) :
  FArchive.int32_io v (FArchive.Make false false bs) =
    (v, FArchive.Make false false (bs ++ le_split 4 v)).
Proof. reflexivity. Qed.

Lemma load_int32 (v0 v : int32) (rest : list byte) :
  Int32.in_range v = true ->
  FArchive.int32_io v0 (FArchive.Make true false (le_split 4 v ++ rest)) =
    (v, FArchive.Make true false rest).
Proof.
  intros Hv. unfold FArchive.int32_io.
  cbn [FArchive.IsError FArchive.IsLoading FArchive.Data].
  pose proof (length_le_split 4 v) as Hlen.
  pose proof (combine_split v Hv) as Hback.
  destruct (le_split 4 v) as [ | b0 [ | b1 [ | b2 [ | b3 [ | b4 l ] ] ] ] ];
    try discriminate Hlen.
  cbn [app]. now rewrite Hback.
Qed.

End PersistenceFacts.

(** C9. Saving a region appends to the archive the six [int32] fields in
    the order X, Y, Z, Width, Height, Depth, four bytes each and nothing
    else (twenty-four bytes, no tag, no length); loading consumes the same
    twenty-four bytes in the same order, so that what was saved is read back
    field for field, whatever the destination held and whatever follows in
    the archive. *)
Theorem serialize_round_trip
    (r r0 : FVoreealRegion.t) (before after : list byte) :
  well_typed r = true ->
  Persistence.serialize r (FArchive.Make false false before) =
    (r, FArchive.Make false false
          (before ++
           le_split 4 (X r) ++ le_split 4 (Y r) ++ le_split 4 (Z r) ++
           le_split 4 (Width r) ++ le_split 4 (Height r) ++
           le_split 4 (Depth r))) /\
  length (le_split 4 (X r) ++ le_split 4 (Y r) ++ le_split 4 (Z r) ++
          le_split 4 (Width r) ++ le_split 4 (Height r) ++
          le_split 4 (Depth r)) = 24%nat /\
  Persistence.serialize r0
    (FArchive.Make true false
       ((le_split 4 (X r) ++ le_split 4 (Y r) ++ le_split 4 (Z r) ++
         le_split 4 (Width r) ++ le_split 4 (Height r) ++
         le_split 4 (Depth r)) ++ after)) =
    (r, FArchive.Make true false after).
Proof.
  intros Hr. destruct r as [rx ry rz rw rh rd].
  unfold well_typed in Hr; cbn in Hr.
  do 5 (apply andb_prop in Hr; destruct Hr as [Hr ?]).
  cbn [X Y Z Width Height Depth].
  split; [ | split ].
  - unfold Persistence.serialize, FArchive.bind, FArchive.ret.
    cbn [X Y Z Width Height Depth].
    do 6 (rewrite PersistenceFacts.save_int32; cbv beta iota).
    rewrite <- !app_assoc. reflexivity.
  - rewrite !length_app, !length_le_split. reflexivity.
  - unfold Persistence.serialize, FArchive.bind, FArchive.ret.
    rewrite <- !app_assoc.
    do 6 (rewrite PersistenceFacts.load_int32 by assumption; cbv beta iota).
    reflexivity.
Qed.

Lemma serialize_round_trip_witness :
  well_typed (Make 1 (-2) 3 4 5 6) = true /\
  Persistence.serialize default
    (FArchive.Make true false
       ((le_split 4 1 ++ le_split 4 (-2) ++ le_split 4 3 ++
         le_split 4 4 ++ le_split 4 5 ++ le_split 4 6) ++ []))
  = (Make 1 (-2) 3 4 5 6, FArchive.Make true false []).
Proof.
  split; [ reflexivity | ].
  exact (proj2 (proj2 (serialize_round_trip (Make 1 (-2) 3 4 5 6) default
                         [] [] eq_refl))).
Defined.

(** ** Classification of a point *)

(** C2 as stated fails outside the numbers that the test compares
    exactly.  A point with a NaN coordinate is reported as contained
    although it lies in no interval: every comparison with NaN is false,
    and the function rejects a point only when a comparison is true.
    Beyond [2^24] the bound upper - 1 is rounded: in the box of extent
    33554432 it is 33554432 again, and the point on the upper corner is
    reported as contained.  At the upper bound [-2^24] it is rounded as
    well, and the box of extent 0 at -16777216 contains a point. *)
Lemma ContainsVector_not_within :
  (ContainsVector (Make 0 0 0 1 1 1)
     (FVector.Make S754_nan (S754_zero false) (S754_zero false)) = true /\
   lies_in_cells (Make 0 0 0 1 1 1)
     (FVector.Make S754_nan (S754_zero false) (S754_zero false)) = false) /\
  (valid (Make 0 0 0 33554432 1 1) = true /\
   FVector.has_nan (FVector.of_ints 33554432 0 0) = false /\
   ContainsVector (Make 0 0 0 33554432 1 1) (FVector.of_ints 33554432 0 0)
     = true /\
   lies_in_cells (Make 0 0 0 33554432 1 1) (FVector.of_ints 33554432 0 0)
     = false) /\
  (valid (Make (-16777216) 0 0 0 1 1) = true /\
   corners_exact (Make (-16777216) 0 0 0 1 1) = true /\
   ContainsVector (Make (-16777216) 0 0 0 1 1)
     (FVector.of_ints (-16777216) 0 0) = true /\
   lies_in_cells (Make (-16777216) 0 0 0 1 1)
     (FVector.of_ints (-16777216) 0 0) = false).
Proof.
  split; [ split; vm_compute; reflexivity | ].
  split; (do 3 (split; [ vm_compute; reflexivity | ])); vm_compute;
    reflexivity.
Qed.

(** C2, amended. For every region whose corners are at most [2^24] in
    magnitude, with an upper corner above [-2^24], and every point none of
    whose coordinates is NaN, [Contains(R, p)] is true exactly when on
    every axis the point lies in [lower, upper - 1], the bounds being the
    integers origin and origin + extent - 1 and the coordinates of the
    point any numbers of the format, fractional and infinite ones
    included.  The unit box at the origin contains (0,0,0) and does not
    contain (1,0,0). *)
Theorem ContainsVector_iff_within (R : FVoreealRegion.t) (p : FVector.t) :
  cells_exact R = true ->
  FVector.well_formed p = true ->
  FVector.has_nan p = false ->
  ContainsVector R p = lies_in_cells R p /\
  ContainsVector (Make 0 0 0 1 1 1) (FVector.of_ints 0 0 0) = true /\
  ContainsVector (Make 0 0 0 1 1 1) (FVector.of_ints 1 0 0) = false.
Proof.
  intros HR Hf Hp. split; [ | split; vm_compute; reflexivity ].
  unfold FVector.has_nan in Hp.
  apply orb_false_iff in Hp; destruct Hp as [Hp Nz].
  apply orb_false_iff in Hp; destruct Hp as [Nx Ny].
  unfold FVector.well_formed in Hf.
  apply andb_prop in Hf; destruct Hf as [Hf Vz].
  apply andb_prop in Hf; destruct Hf as [Vx Vy].
  destruct R as [rx ry rz rw rh rd].
  unfold cells_exact, corners_exact in HR;
    cbn [X Y Z Width Height Depth] in HR.
  do 8 (apply andb_prop in HR; destruct HR as [HR ?]).
  repeat match goal with
         | H : (_ <=? _) = true |- _ => apply Z.leb_le in H
         | H : (_ <? _) = true |- _ => apply Z.ltb_lt in H
         end.
  assert (E : forall a w, Z.abs (a + w) <= 16777216 -> Int32.add a w = a + w).
  { intros a w H'. apply Int32Facts.wrap_small, Int32Facts.in_range_iff.
    unfold Int32.min_signed, Int32.max_signed. lia. }
  assert (S1 : forall u, Z.abs u <= 16777216 ->
             Float32.sub (Float32.of_int u) (Float32.of_int 1)
             = Float32.of_int (u - 1)).
  { intros u Hu. rewrite Float32Facts.sub_one_of_int.
    - now rewrite Float32Facts.round_int_exact.
    - change (2 ^ 31) with 2147483648. lia. }
  change 16777216 with (2 ^ 24) in *.
  pose proof (Float32Facts.outside_interval (FVector.X p) rx (rx + rw - 1)
                Vx Nx ltac:(lia) ltac:(lia)) as Ax.
  pose proof (Float32Facts.outside_interval (FVector.Y p) ry (ry + rh - 1)
                Vy Ny ltac:(lia) ltac:(lia)) as Ay.
  pose proof (Float32Facts.outside_interval (FVector.Z p) rz (rz + rd - 1)
                Vz Nz ltac:(lia) ltac:(lia)) as Az.
  unfold ContainsVector, lies_in_cells, GetLower, GetUpper, FVector.of_ints,
    Float32.gt; cbn [X Y Z Width Height Depth FVector.X FVector.Y FVector.Z].
  rewrite (E rx rw), (E ry rh), (E rz rd) by assumption.
  rewrite (S1 (rx + rw)), (S1 (ry + rh)), (S1 (rz + rd)) by assumption.
  revert Ax Ay Az.
  repeat match goal with
         | |- context [Float32.lt ?a ?b] =>
             generalize (Float32.lt a b); intro
         end.
  repeat match goal with
         | |- context [Float32.in_interval ?a ?b ?c] =>
             generalize (Float32.in_interval a b c); intro
         end.
  repeat match goal with b : bool |- _ => destruct b end;
    cbn; intros; try discriminate; reflexivity.
Qed.

Lemma ContainsVector_iff_within_witness :
  cells_exact (Make 0 0 0 1 1 1) = true /\
  FVector.has_nan
    (FVector.Make (S754_finite false 8388608 (-24))   (* 1/2 *)
                  (S754_zero false) (S754_zero false)) = false /\
  ContainsVector (Make 0 0 0 1 1 1)
    (FVector.Make (S754_finite false 8388608 (-24))
                  (S754_zero false) (S754_zero false))
  = lies_in_cells (Make 0 0 0 1 1 1)
      (FVector.Make (S754_finite false 8388608 (-24))
                    (S754_zero false) (S754_zero false)).
Proof.
  do 2 (split; [ reflexivity | ]).
  exact (proj1 (ContainsVector_iff_within (Make 0 0 0 1 1 1)
                  (FVector.Make (S754_finite false 8388608 (-24))
                                (S754_zero false) (S754_zero false))
                  eq_refl eq_refl eq_refl)).
Defined.

(** ** Self-containment and [Intersect] *)

(** On one axis, a box with a representable upper bound is neither
    separated from itself nor outside itself. *)
Lemma axis_self (a w : int32) :
  Int32.in_range a = true -> Int32.in_range (a + w) = true -> 0 <= w ->
  Float32.lt (Float32.of_int (Int32.add a w)) (Float32.of_int a) = false /\
  Float32.gt (Float32.of_int a) (Float32.of_int (Int32.add a w)) = false /\
  Float32.ge (Float32.of_int a) (Float32.of_int a) = true /\
  Float32.le (Float32.of_int (Int32.add a w)) (Float32.of_int (Int32.add a w))
    = true.
Proof.
  intros Ha Haw Hw. unfold Int32.add. rewrite (Int32Facts.wrap_small _ Haw).
  apply Int32Facts.in_range_iff in Ha, Haw.
  unfold Int32.min_signed, Int32.max_signed in *.
  assert (2 ^ 32 = 4294967296) by reflexivity.
  unfold Float32.gt, Float32.ge.
  rewrite Float32Facts.of_int_not_lt by lia.
  rewrite !Float32Facts.of_int_le by lia.
  repeat split.
Qed.

(** C5 as stated fails on overflow.  A valid region whose upper corner
    overflows is classified as disjoint from itself: [X + Width] wraps
    around to the least [int32], below the lower corner. *)
Lemma Contains_self_overflow :
  valid (Make 2147483647 0 0 1 0 0) = true /\
  well_typed (Make 2147483647 0 0 1 0 0) = true /\
  GetUpperInt (Make 2147483647 0 0 1 0 0) = FIntVector.Make (-2147483648) 0 0 /\
  Contains (Make 2147483647 0 0 1 0 0) (Make 2147483647 0 0 1 0 0)
    = EContainmentType.Disjoint.
Proof. repeat split; vm_compute; reflexivity. Qed.

(** C5, amended. A valid region (no negative extent) whose upper corner
    origin + extent is representable in [int32] contains itself.  No
    region, valid or not, "intersects" itself; and for all regions
    [Intersect] is true exactly when the classification is [Intersects],
    so a contained box, like an identical one, reports false. *)
Theorem Contains_self (A : FVoreealRegion.t) :
  well_typed A = true ->
  valid A = true ->
  upper_in_range A = true ->
  Contains A A = EContainmentType.Contains /\
  (forall R : FVoreealRegion.t, Intersect R R = false) /\
  (forall B C : FVoreealRegion.t,
      Intersect B C = true <-> Contains B C = EContainmentType.Intersects).
Proof.
  intros Ht Hv Hu.
  assert (Hint : forall B C : FVoreealRegion.t,
             Intersect B C = true <->
             Contains B C = EContainmentType.Intersects).
  { intros B C. unfold Intersect.
    destruct (Contains B C); cbn; split; intros; congruence. }
  assert (Hrefl : forall R : FVoreealRegion.t, Intersect R R = false).
  { intros R.
    unfold Intersect, Contains, GetLower, GetUpper, FVector.of_ints,
      Float32.ge; cbn [FVector.X FVector.Y FVector.Z].
    rewrite (Float32Facts.le_refl (Float32.of_int (X R))
               (Float32Facts.of_int_not_nan _)),
      (Float32Facts.le_refl (Float32.of_int (Y R))
         (Float32Facts.of_int_not_nan _)),
      (Float32Facts.le_refl (Float32.of_int (Z R))
         (Float32Facts.of_int_not_nan _)),
      (Float32Facts.le_refl (Float32.of_int (Int32.add (X R) (Width R)))
         (Float32Facts.of_int_not_nan _)),
      (Float32Facts.le_refl (Float32.of_int (Int32.add (Y R) (Height R)))
         (Float32Facts.of_int_not_nan _)),
      (Float32Facts.le_refl (Float32.of_int (Int32.add (Z R) (Depth R)))
         (Float32Facts.of_int_not_nan _)).
    match goal with
    | |- context [if ?g then EContainmentType.Disjoint else _] =>
        generalize g
    end.
    intros g. destruct g; reflexivity. }
  assert (Hself : Contains A A = EContainmentType.Contains).
  { destruct A as [ax ay az aw ah ad].
    unfold well_typed in Ht; cbn [X Y Z Width Height Depth] in Ht.
    do 5 (apply andb_prop in Ht; destruct Ht as [Ht ?]).
    unfold valid in Hv; cbn [X Y Z Width Height Depth] in Hv.
    do 2 (apply andb_prop in Hv; destruct Hv as [Hv ?]).
    unfold upper_in_range in Hu; cbn [X Y Z Width Height Depth] in Hu.
    do 2 (apply andb_prop in Hu; destruct Hu as [Hu ?]).
    repeat match goal with
           | H : (0 <=? _) = true |- _ => apply Z.leb_le in H
           end.
    destruct (@axis_self ax aw) as (X1 & X2 & X3 & X4); try assumption.
    destruct (@axis_self ay ah) as (Y1 & Y2 & Y3 & Y4); try assumption.
    destruct (@axis_self az ad) as (Z1 & Z2 & Z3 & Z4); try assumption.
    unfold Contains, GetLower, GetUpper, FVector.of_ints;
      cbn [X Y Z Width Height Depth FVector.X FVector.Y FVector.Z].
    rewrite X1, X2, X3, X4, Y1, Y2, Y3, Y4, Z1, Z2, Z3, Z4. reflexivity. }
  split; [ exact Hself | split; [ exact Hrefl | exact Hint ] ].
Qed.

Lemma Contains_self_witness :
  well_typed (Make 2 3 4 5 6 7) = true /\
  valid (Make 2 3 4 5 6 7) = true /\
  upper_in_range (Make 2 3 4 5 6 7) = true /\
  Contains (Make 2 3 4 5 6 7) (Make 2 3 4 5 6 7) = EContainmentType.Contains /\
  Intersect (Make 2147483647 0 0 1 0 0) (Make 2147483647 0 0 1 0 0) = false.
Proof.
  do 3 (split; [ reflexivity | ]).
  destruct (@Contains_self (Make 2 3 4 5 6 7) eq_refl eq_refl eq_refl)
    as (H1 & H2 & _).
  exact (conj H1 (H2 (Make 2147483647 0 0 1 0 0))).
Defined.

(** ** The classification on exact corners *)

(** Between regions whose corners single precision holds exactly, the
    classification is the one read on the integer corners: [Disjoint] when
    an upper bound is strictly below the other lower bound on some axis,
    else [Contains] when the second box lies within the first on every
    axis, else [Intersects]; [Intersect] follows. *)
Theorem Contains_on_exact_corners (A B : FVoreealRegion.t) :
  corners_exact A = true -> corners_exact B = true ->
  Contains A B = classify_corners A B /\
  Intersect A B
    = EContainmentType.eqb (classify_corners A B) EContainmentType.Intersects.
Proof.
  intros HA HB. unfold Intersect.
  rewrite (classify_exact A B HA HB). split; reflexivity.
Qed.

Lemma Contains_on_exact_corners_witness :
  corners_exact (Make 0 0 0 10 10 10) = true /\
  corners_exact (Make 2 2 2 3 3 3) = true /\
  Contains (Make 0 0 0 10 10 10) (Make 2 2 2 3 3 3)
    = classify_corners (Make 0 0 0 10 10 10) (Make 2 2 2 3 3 3).
Proof.
  do 2 (split; [ reflexivity | ]).
  apply (proj1 (Contains_on_exact_corners (Make 0 0 0 10 10 10)
                  (Make 2 2 2 3 3 3) eq_refl eq_refl)).
Defined.

(** [Grow] moves the lower corner back and the upper corner forward by the
    same amount on each axis, and [GrowUnified] is [Grow] with one amount
    for the three axes. *)
Theorem Grow_corners (r : FVoreealRegion.t) (dx dy dz n : int32) :
  GetLowerInt (Grow dx dy dz r) =
    FIntVector.Make (Int32.sub (X r) dx) (Int32.sub (Y r) dy)
                    (Int32.sub (Z r) dz) /\
  GetUpperInt (Grow dx dy dz r) =
    FIntVector.Make (Int32.add (Int32.add (X r) (Width r)) dx)
                    (Int32.add (Int32.add (Y r) (Height r)) dy)
                    (Int32.add (Int32.add (Z r) (Depth r)) dz) /\
  GrowUnified n r = Grow n n n r.
Proof.
  assert (Hup : forall a w d,
             Int32.add (Int32.sub a d) (Int32.add w (Int32.mul d 2))
             = Int32.add (Int32.add a w) d).
  { intros a w d. unfold Int32.add, Int32.sub, Int32.mul.
    destruct (Int32Facts.wrap_repr (a - d)) as [k1 ->].
    destruct (Int32Facts.wrap_repr (d * 2)) as [k2 ->].
    destruct (Int32Facts.wrap_repr (w + (d * 2 + k2 * Int32.modulus)))
      as [k3 ->].
    destruct (Int32Facts.wrap_repr (a + w)) as [k4 ->].
    apply Int32Facts.wrap_congr with (k := k1 + k2 + k3 - k4). ring. }
  destruct r as [rx ry rz rw rh rd].
  unfold Grow, GrowUnified, GetLowerInt, GetUpperInt;
    cbn [X Y Z Width Height Depth].
  rewrite (Hup rx rw dx), (Hup ry rh dy), (Hup rz rd dz).
  repeat split.
Qed.

(** On exact corners and exact integer points the comparisons of the point
    test are comparisons of integers. *)
Lemma point_test_exact (R : FVoreealRegion.t) (px py pz : int32) :
  cells_exact R = true ->
  Z.abs px <= 16777216 -> Z.abs py <= 16777216 -> Z.abs pz <= 16777216 ->
  ContainsVector R (FVector.of_ints px py pz) = occupies R px py pz.
Proof.
  intros HR Hx Hy Hz. destruct R as [rx ry rz rw rh rd].
  unfold cells_exact, corners_exact in HR;
    cbn [X Y Z Width Height Depth] in HR.
  do 8 (apply andb_prop in HR; destruct HR as [HR ?]).
  repeat match goal with
         | H : (_ <=? _) = true |- _ => apply Z.leb_le in H
         | H : (_ <? _) = true |- _ => apply Z.ltb_lt in H
         end.
  assert (E : forall a w, Z.abs (a + w) <= 16777216 -> Int32.add a w = a + w).
  { intros a w H'. apply Int32Facts.wrap_small, Int32Facts.in_range_iff.
    unfold Int32.min_signed, Int32.max_signed. lia. }
  assert (S1 : forall u, Z.abs u <= 16777216 ->
             Float32.sub (Float32.of_int u) (Float32.of_int 1)
             = Float32.of_int (u - 1)).
  { intros u Hu. rewrite Float32Facts.sub_one_of_int.
    - now rewrite Float32Facts.round_int_exact.
    - change (2 ^ 31) with 2147483648. lia. }
  unfold ContainsVector, occupies, GetLower, GetUpper, FVector.of_ints,
    Float32.gt; cbn [X Y Z Width Height Depth FVector.X FVector.Y FVector.Z].
  rewrite !E by assumption. rewrite !S1 by assumption.
  change 16777216 with (2 ^ 24) in *.
  rewrite !Float32Facts.of_int_lt_exact by lia.
  rewrite !Z.leb_antisym.
  repeat match goal with
         | |- context [?a <? ?b] => generalize (a <? b); intro
         end.
  repeat match goal with b : bool |- _ => destruct b end; reflexivity.
Qed.

(** For a region and an integer point that single precision holds exactly,
    the point test is the discrete one: the point is contained when it lies
    in [origin, origin + extent - 1] on every axis. *)
Theorem ContainsVector_on_cells (R : FVoreealRegion.t) (px py pz : int32) :
  cells_exact R = true ->
  Z.abs px <= 16777216 -> Z.abs py <= 16777216 -> Z.abs pz <= 16777216 ->
  ContainsVector R (FVector.of_ints px py pz) = occupies R px py pz.
Proof. intros HR Hx Hy Hz. now apply point_test_exact. Qed.

Lemma ContainsVector_on_cells_witness :
  cells_exact (Make 0 0 0 1 1 1) = true /\
  Z.abs 0 <= 16777216 /\
  ContainsVector (Make 0 0 0 1 1 1) (FVector.of_ints 0 0 0)
    = occupies (Make 0 0 0 1 1 1) 0 0 0.
Proof.
  split; [ reflexivity | split; [ discriminate | ] ].
  apply (ContainsVector_on_cells (Make 0 0 0 1 1 1) 0 0 0);
    [ reflexivity | discriminate | discriminate | discriminate ].
Defined.

(** A malformed box is not contained in itself: with exact corners and a
    negative extent on some axis, its upper bound lies below its lower
    bound there and the region is classified as disjoint from itself. *)
Theorem Contains_self_negative_extent (A : FVoreealRegion.t) :
  corners_exact A = true ->
  Width A < 0 \/ Height A < 0 \/ Depth A < 0 ->
  Contains A A = EContainmentType.Disjoint.
Proof.
  intros HA Hneg. rewrite (classify_exact A A HA HA).
  unfold classify_corners. cbv zeta.
  apply first_branch_iff. rewrite !Z.ltb_lt. lia.
Qed.

Lemma Contains_self_negative_extent_witness :
  corners_exact (Make 0 0 0 (-1) (-1) (-1)) = true /\
  Contains (Make 0 0 0 (-1) (-1) (-1)) (Make 0 0 0 (-1) (-1) (-1))
    = EContainmentType.Disjoint.
Proof.
  split; [ reflexivity | ].
  apply (Contains_self_negative_extent (Make 0 0 0 (-1) (-1) (-1)));
    [ reflexivity | left; reflexivity ].
Defined.

(** ** The classification as an order on boxes *)

Lemma classify_boxes_Disjoint (L1 U1 L2 U2 : FIntVector.t) :
  classify_boxes L1 U1 L2 U2 = EContainmentType.Disjoint <->
  (FIntVector.X U2 < FIntVector.X L1 \/ FIntVector.X U1 < FIntVector.X L2 \/
   FIntVector.Y U2 < FIntVector.Y L1 \/ FIntVector.Y U1 < FIntVector.Y L2 \/
   FIntVector.Z U2 < FIntVector.Z L1 \/ FIntVector.Z U1 < FIntVector.Z L2).
Proof.
  unfold classify_boxes. rewrite first_branch_iff, !Z.ltb_lt. reflexivity.
Qed.

Lemma classify_boxes_Contains (L1 U1 L2 U2 : FIntVector.t) :
  classify_boxes L1 U1 L2 U2 = EContainmentType.Contains <->
  ((FIntVector.X L1 <= FIntVector.X U2 /\ FIntVector.X L2 <= FIntVector.X U1 /\
    FIntVector.Y L1 <= FIntVector.Y U2 /\ FIntVector.Y L2 <= FIntVector.Y U1 /\
    FIntVector.Z L1 <= FIntVector.Z U2 /\ FIntVector.Z L2 <= FIntVector.Z U1) /\
   (FIntVector.X L1 <= FIntVector.X L2 /\ FIntVector.X U2 <= FIntVector.X U1 /\
    FIntVector.Y L1 <= FIntVector.Y L2 /\ FIntVector.Y U2 <= FIntVector.Y U1 /\
    FIntVector.Z L1 <= FIntVector.Z L2 /\ FIntVector.Z U2 <= FIntVector.Z U1)).
Proof.
  unfold classify_boxes.
  destruct L1 as [x1 y1 z1], U1 as [u1 v1 w1], L2 as [x2 y2 z2],
    U2 as [u2 v2 w2]; cbn [FIntVector.X FIntVector.Y FIntVector.Z].
  destruct (_ || _) eqn:Hs.
  - rewrite !orb_true_iff, !Z.ltb_lt in Hs.
    split; [ discriminate | intros [H _]; exfalso; lia ].
  - rewrite !orb_false_iff, !Z.ltb_ge in Hs.
    destruct (_ && _) eqn:He.
    + rewrite !andb_true_iff, !Z.leb_le in He.
      split; [ intros _; split; lia | reflexivity ].
    + apply not_true_iff_false in He.
      rewrite !andb_true_iff, !Z.leb_le in He.
      split; [ discriminate | intros [_ H]; exfalso; apply He; lia ].
Qed.

Lemma in_range_abs (z : int32) : Int32.in_range z = true -> Z.abs z < 2 ^ 32.
Proof.
  intros H. apply Int32Facts.in_range_iff in H.
  unfold Int32.min_signed, Int32.max_signed in H.
  change (2 ^ 32) with 4294967296. lia.
Qed.

(** Between regions whose fields are [int32], the classification is the
    one of the integer boxes that the single-precision corners denote. *)
Lemma Contains_values (A B : FVoreealRegion.t) :
  well_typed A = true -> well_typed B = true ->
  Contains A B =
    classify_boxes (LowerValue A) (UpperValue A) (LowerValue B) (UpperValue B).
Proof.
  intros HA HB.
  destruct A as [ax ay az aw ah ad], B as [bx by_ bz bw bh bd].
  unfold well_typed in HA, HB; cbn [X Y Z Width Height Depth] in HA, HB.
  do 5 (apply andb_prop in HA; destruct HA as [HA ?]).
  do 5 (apply andb_prop in HB; destruct HB as [HB ?]).
  repeat match goal with
         | H : Int32.in_range _ = true |- _ => apply in_range_abs in H
         end.
  assert (E : forall a w, Z.abs (Int32.add a w) < 2 ^ 32)
    by (intros; apply in_range_abs, Int32Facts.wrap_in_range).
  unfold Contains, classify_boxes, LowerValue, UpperValue, GetLower, GetUpper,
    FVector.of_ints, Float32.gt, Float32.ge;
    cbn [X Y Z Width Height Depth FVector.X FVector.Y FVector.Z
         FIntVector.X FIntVector.Y FIntVector.Z].
  rewrite !Float32Facts.of_int_lt_round by (assumption || apply E).
  rewrite !Float32Facts.of_int_le_round by (assumption || apply E).
  reflexivity.
Qed.

Lemma Disjoint_swap (A B : FVoreealRegion.t) :
  Contains A B = EContainmentType.Disjoint <->
  Contains B A = EContainmentType.Disjoint.
Proof.
  unfold Contains. cbv zeta. rewrite !first_branch_iff. unfold Float32.gt.
  repeat match goal with
         | |- context [Float32.lt ?a ?b] =>
             generalize (Float32.lt a b); intro
         end.
  tauto.
Qed.

(** Disjointness is symmetric, for all regions, although [Intersect] is
    not: exchanging the two regions exchanges the two comparisons made on
    each axis. *)
Theorem Contains_Disjoint_symmetric (A B : FVoreealRegion.t) :
  Contains A B = EContainmentType.Disjoint <->
  Contains B A = EContainmentType.Disjoint.
Proof. exact (Disjoint_swap A B). Qed.

(** Containment is transitive between regions whose fields are [int32],
    rounding of the corners and wrap-around of the upper corner
    included. *)
Theorem Contains_transitive (A B C : FVoreealRegion.t) :
  well_typed A = true -> well_typed B = true -> well_typed C = true ->
  Contains A B = EContainmentType.Contains ->
  Contains B C = EContainmentType.Contains ->
  Contains A C = EContainmentType.Contains.
Proof.
  intros HA HB HC.
  rewrite (Contains_values A B HA HB), (Contains_values B C HB HC),
    (Contains_values A C HA HC), !classify_boxes_Contains.
  generalize (LowerValue A) (UpperValue A) (LowerValue B) (UpperValue B)
             (LowerValue C) (UpperValue C).
  intros [x1 y1 z1] [u1 v1 w1] [x2 y2 z2] [u2 v2 w2] [x3 y3 z3] [u3 v3 w3];
    cbn [FIntVector.X FIntVector.Y FIntVector.Z].
  lia.
Qed.

Lemma Contains_transitive_witness :
  Contains (Make 0 0 0 10 10 10) (Make 1 1 1 5 5 5) = EContainmentType.Contains /\
  Contains (Make 1 1 1 5 5 5) (Make 2 2 2 3 3 3) = EContainmentType.Contains /\
  Contains (Make 0 0 0 10 10 10) (Make 2 2 2 3 3 3) = EContainmentType.Contains.
Proof.
  assert (H1 : Contains (Make 0 0 0 10 10 10) (Make 1 1 1 5 5 5)
               = EContainmentType.Contains) by (vm_compute; reflexivity).
  assert (H2 : Contains (Make 1 1 1 5 5 5) (Make 2 2 2 3 3 3)
               = EContainmentType.Contains) by (vm_compute; reflexivity).
  split; [ exact H1 | split; [ exact H2 | ] ].
  exact (Contains_transitive (Make 0 0 0 10 10 10) (Make 1 1 1 5 5 5)
           (Make 2 2 2 3 3 3) eq_refl eq_refl eq_refl H1 H2).
Defined.

Lemma classify_corners_boxes (A B : FVoreealRegion.t) :
  classify_corners A B =
    classify_boxes
      (FIntVector.Make (X A) (Y A) (Z A))
      (FIntVector.Make (X A + Width A) (Y A + Height A) (Z A + Depth A))
      (FIntVector.Make (X B) (Y B) (Z B))
      (FIntVector.Make (X B + Width B) (Y B + Height B) (Z B + Depth B)).
Proof. reflexivity. Qed.

Lemma cells_exact_corners (R : FVoreealRegion.t) :
  cells_exact R = true -> corners_exact R = true.
Proof.
  unfold cells_exact. intros H.
  do 3 (apply andb_prop in H; destruct H as [H _]). exact H.
Qed.

Lemma occupies_iff (R : FVoreealRegion.t) (px py pz : int32) :
  occupies R px py pz = true <->
  (X R <= px <= X R + Width R - 1 /\ Y R <= py <= Y R + Height R - 1 /\
   Z R <= pz <= Z R + Depth R - 1).
Proof.
  unfold occupies. rewrite !andb_true_iff, !Z.leb_le. tauto.
Qed.

(** Two regions that contain each other are the same region, when single
    precision holds their corners exactly. *)
Theorem Contains_antisymmetric (A B : FVoreealRegion.t) :
  corners_exact A = true -> corners_exact B = true ->
  Contains A B = EContainmentType.Contains ->
  Contains B A = EContainmentType.Contains ->
  A = B.
Proof.
  intros HA HB.
  rewrite (classify_exact A B HA HB), (classify_exact B A HB HA),
    !classify_corners_boxes, !classify_boxes_Contains.
  destruct A as [ax ay az aw ah ad], B as [bx by_ bz bw bh bd];
    cbn [X Y Z Width Height Depth FIntVector.X FIntVector.Y FIntVector.Z].
  intros H1 H2. f_equal; lia.
Qed.

Lemma Contains_antisymmetric_witness :
  corners_exact (Make 2 3 4 5 6 7) = true /\
  Contains (Make 2 3 4 5 6 7) (Make 2 3 4 5 6 7) = EContainmentType.Contains /\
  Make 2 3 4 5 6 7 = Make 2 3 4 5 6 7.
Proof.
  assert (H : Contains (Make 2 3 4 5 6 7) (Make 2 3 4 5 6 7)
              = EContainmentType.Contains) by (vm_compute; reflexivity).
  split; [ reflexivity | split; [ exact H | ] ].
  exact (Contains_antisymmetric (Make 2 3 4 5 6 7) (Make 2 3 4 5 6 7)
           eq_refl eq_refl H H).
Defined.

(** ** The classification and the cells of a region *)

(** Between a region whose fields are [int32] and a point whose
    coordinates are [int32], the point test compares the roundings of the
    coordinates with the roundings of the lower corner and of the upper
    corner less one. *)
Lemma point_test_values (R : FVoreealRegion.t) (px py pz : int32) :
  well_typed R = true ->
  Int32.in_range px = true -> Int32.in_range py = true ->
  Int32.in_range pz = true ->
  ContainsVector R (FVector.of_ints px py pz) = true <->
  (Float32.round_int (X R) <= Float32.round_int px <=
     Float32.round_int
       (Float32.round_int (Int32.add (X R) (Width R)) - 1) /\
   Float32.round_int (Y R) <= Float32.round_int py <=
     Float32.round_int
       (Float32.round_int (Int32.add (Y R) (Height R)) - 1) /\
   Float32.round_int (Z R) <= Float32.round_int pz <=
     Float32.round_int
       (Float32.round_int (Int32.add (Z R) (Depth R)) - 1)).
Proof.
  intros HR Hx Hy Hz.
  destruct R as [rx ry rz rw rh rd].
  unfold well_typed in HR; cbn [X Y Z Width Height Depth] in HR.
  do 5 (apply andb_prop in HR; destruct HR as [HR ?]).
  repeat match goal with
         | H : Int32.in_range _ = true |- _ => apply in_range_abs in H
         end.
  assert (E31 : forall a w, Z.abs (Int32.add a w) <= 2 ^ 31).
  { intros a w. pose proof (Int32Facts.wrap_in_range (a + w)) as H'.
    apply Int32Facts.in_range_iff in H'. fold (Int32.add a w) in H'.
    unfold Int32.min_signed, Int32.max_signed in H'.
    change (2 ^ 31) with 2147483648. lia. }
  assert (E32 : forall u, Z.abs u <= 2 ^ 31 ->
                          Z.abs (Float32.round_int u - 1) < 2 ^ 32).
  { intros u Hu. pose proof (Float32Facts.round_int_int32 u Hu) as H'.
    change (2 ^ 31) with 2147483648 in H'.
    change (2 ^ 32) with 4294967296. lia. }
  unfold ContainsVector, GetLower, GetUpper, FVector.of_ints, Float32.gt;
    cbn [X Y Z Width Height Depth FVector.X FVector.Y FVector.Z].
  rewrite (Float32Facts.sub_one_of_int _ (E31 rx rw)),
    (Float32Facts.sub_one_of_int _ (E31 ry rh)),
    (Float32Facts.sub_one_of_int _ (E31 rz rd)).
  rewrite (Float32Facts.of_int_lt_round px rx),
    (Float32Facts.of_int_lt_round py ry),
    (Float32Facts.of_int_lt_round pz rz) by assumption.
  rewrite (Float32Facts.of_int_lt_round _ px),
    (Float32Facts.of_int_lt_round _ py),
    (Float32Facts.of_int_lt_round _ pz)
    by (assumption || apply E32, E31).
  match goal with
  | |- (if ?g then false else true) = true <-> _ =>
      assert (Hg : (if g then false else true) = true <-> g = false)
        by (destruct g; split; congruence);
      rewrite Hg; clear Hg
  end.
  rewrite !orb_false_iff, !Z.ltb_ge. tauto.
Qed.

(** A region classified as containing another contains every cell of it:
    a point with [int32] coordinates that the point test finds in the
    second region is found in the first, whatever the size of the corners
    and of the coordinates. *)
Theorem Contains_includes_cells (A B : FVoreealRegion.t) (px py pz : int32) :
  well_typed A = true -> well_typed B = true ->
  Int32.in_range px = true -> Int32.in_range py = true ->
  Int32.in_range pz = true ->
  Contains A B = EContainmentType.Contains ->
  ContainsVector B (FVector.of_ints px py pz) = true ->
  ContainsVector A (FVector.of_ints px py pz) = true.
Proof.
  intros HA HB Hx Hy Hz.
  rewrite (Contains_values A B HA HB), classify_boxes_Contains,
    (point_test_values A px py pz HA Hx Hy Hz),
    (point_test_values B px py pz HB Hx Hy Hz).
  unfold LowerValue, UpperValue;
    cbn [FIntVector.X FIntVector.Y FIntVector.Z].
  intros [_ (L1 & U1 & L2 & U2 & L3 & U3)] (P1 & P2 & P3).
  pose proof (Float32Facts.round_int_mono _ _
                (proj1 (Z.sub_le_mono_r _ _ 1) U1)).
  pose proof (Float32Facts.round_int_mono _ _
                (proj1 (Z.sub_le_mono_r _ _ 1) U2)).
  pose proof (Float32Facts.round_int_mono _ _
                (proj1 (Z.sub_le_mono_r _ _ 1) U3)).
  lia.
Qed.

Lemma Contains_includes_cells_witness :
  ContainsVector (Make 2 2 2 3 3 3) (FVector.of_ints 4 4 4) = true /\
  ContainsVector (Make 0 0 0 10 10 10) (FVector.of_ints 4 4 4) = true.
Proof.
  assert (H : ContainsVector (Make 2 2 2 3 3 3) (FVector.of_ints 4 4 4) = true)
    by (vm_compute; reflexivity).
  split; [ exact H | ].
  refine (Contains_includes_cells (Make 0 0 0 10 10 10) (Make 2 2 2 3 3 3)
            4 4 4 eq_refl eq_refl eq_refl eq_refl eq_refl _ H).
  vm_compute. reflexivity.
Defined.

(** Regions classified as disjoint share no cell: no point with [int32]
    coordinates passes the point test of both, whatever the size of the
    corners and of the coordinates. *)
Theorem Disjoint_shares_no_cell (A B : FVoreealRegion.t) (px py pz : int32) :
  well_typed A = true -> well_typed B = true ->
  Int32.in_range px = true -> Int32.in_range py = true ->
  Int32.in_range pz = true ->
  Contains A B = EContainmentType.Disjoint ->
  ContainsVector A (FVector.of_ints px py pz) = true ->
  ContainsVector B (FVector.of_ints px py pz) = false.
Proof.
  intros HA HB Hx Hy Hz.
  rewrite (Contains_values A B HA HB), classify_boxes_Disjoint,
    (point_test_values A px py pz HA Hx Hy Hz).
  unfold LowerValue, UpperValue;
    cbn [FIntVector.X FIntVector.Y FIntVector.Z].
  intros Hd (P1 & P2 & P3).
  apply not_true_iff_false.
  rewrite (point_test_values B px py pz HB Hx Hy Hz).
  intros (Q1 & Q2 & Q3).
  assert (Hup : forall u, Float32.round_int (Float32.round_int u - 1)
                          <= Float32.round_int u).
  { intros u. rewrite <- (Float32Facts.round_int_idem u) at 2.
    apply Float32Facts.round_int_mono. lia. }
  pose proof (Hup (Int32.add (X A) (Width A))).
  pose proof (Hup (Int32.add (Y A) (Height A))).
  pose proof (Hup (Int32.add (Z A) (Depth A))).
  pose proof (Hup (Int32.add (X B) (Width B))).
  pose proof (Hup (Int32.add (Y B) (Height B))).
  pose proof (Hup (Int32.add (Z B) (Depth B))).
  lia.
Qed.

Lemma Disjoint_shares_no_cell_witness :
  ContainsVector (Make 0 0 0 2 2 2) (FVector.of_ints 1 1 1) = true /\
  ContainsVector (Make 5 5 5 2 2 2) (FVector.of_ints 1 1 1) = false.
Proof.
  assert (H : ContainsVector (Make 0 0 0 2 2 2) (FVector.of_ints 1 1 1) = true)
    by (vm_compute; reflexivity).
  split; [ exact H | ].
  refine (Disjoint_shares_no_cell (Make 0 0 0 2 2 2) (Make 5 5 5 2 2 2)
            1 1 1 eq_refl eq_refl eq_refl eq_refl eq_refl _ H).
  vm_compute. reflexivity.
Defined.

(** A region with at least one cell on every axis contains its lower corner
    and its centre and does not contain its upper corner: the upper bound
    of the point test is exclusive. *)
Theorem nonempty_contains_Min_and_GetCenter (R : FVoreealRegion.t) :
  cells_exact R = true ->
  1 <= Width R -> 1 <= Height R -> 1 <= Depth R ->
  ContainsVector R (Min R) = true /\
  ContainsVector R (GetCenter R) = true /\
  ContainsVector R (Max R) = false.
Proof.
  intros HR Hw Hh Hd.
  pose proof HR as HR'. unfold cells_exact, corners_exact in HR'.
  do 8 (apply andb_prop in HR'; destruct HR' as [HR' ?]).
  repeat match goal with
         | H : (_ <=? _) = true |- _ => apply Z.leb_le in H
         | H : (_ <? _) = true |- _ => apply Z.ltb_lt in H
         end.
  assert (Hq : forall w, 1 <= w -> 0 <= Z.quot w 2 <= w - 1).
  { intros w H'. Z.quot_rem_to_equations. lia. }
  pose proof (Hq _ Hw). pose proof (Hq _ Hh). pose proof (Hq _ Hd).
  assert (Ediv : forall w, Z.abs w <= 33554432 -> Int32.div w 2 = Z.quot w 2).
  { intros w H'. unfold Int32.div.
    apply Int32Facts.wrap_small, Int32Facts.in_range_iff.
    unfold Int32.min_signed, Int32.max_signed.
    Z.quot_rem_to_equations. lia. }
  assert (Eadd : forall a b, Z.abs (a + b) <= 16777216 -> Int32.add a b = a + b).
  { intros a b H'. apply Int32Facts.wrap_small, Int32Facts.in_range_iff.
    unfold Int32.min_signed, Int32.max_signed. lia. }
  unfold Min, Max, GetCenter.
  rewrite !Ediv by lia. rewrite !Eadd by lia.
  rewrite !point_test_exact by (assumption || lia).
  split; [ apply occupies_iff; lia | split; [ apply occupies_iff; lia | ] ].
  apply not_true_iff_false. rewrite occupies_iff. lia.
Qed.

Lemma nonempty_contains_Min_and_GetCenter_witness :
  cells_exact (Make 2 3 4 5 6 7) = true /\
  ContainsVector (Make 2 3 4 5 6 7) (GetCenter (Make 2 3 4 5 6 7)) = true.
Proof.
  split; [ reflexivity | ].
  refine (proj1 (proj2 (nonempty_contains_Min_and_GetCenter (Make 2 3 4 5 6 7)
                          eq_refl _ _ _))); discriminate.
Defined.

(** A region without a cell on some axis (an extent that is zero or
    negative) contains no integer point. *)
Theorem empty_extent_contains_no_cell
    (R : FVoreealRegion.t) (px py pz : int32) :
  cells_exact R = true ->
  Z.abs px <= 16777216 -> Z.abs py <= 16777216 -> Z.abs pz <= 16777216 ->
  Width R <= 0 \/ Height R <= 0 \/ Depth R <= 0 ->
  ContainsVector R (FVector.of_ints px py pz) = false.
Proof.
  intros HR Hx Hy Hz He. rewrite point_test_exact by assumption.
  apply not_true_iff_false. rewrite occupies_iff. lia.
Qed.

Lemma empty_extent_contains_no_cell_witness :
  cells_exact (Make 0 0 0 0 4 4) = true /\
  ContainsVector (Make 0 0 0 0 4 4) (FVector.of_ints 0 1 1) = false.
Proof.
  split; [ reflexivity | ].
  refine (empty_extent_contains_no_cell (Make 0 0 0 0 4 4) 0 1 1
            eq_refl _ _ _ _);
    [ discriminate | discriminate | discriminate | left; discriminate ].
Defined.

(** The point test on any finite point, fractional coordinates included:
    with exact corners, the point is contained when its coordinates lie in
    [X, X + Width - 1] and likewise on the other axes, so that a point
    strictly between two cells, such as (1/2, 0, 0) in the unit box, is in
    no cell. *)
Theorem ContainsVector_finite_point
    (R : FVoreealRegion.t) (p : FVector.t) (vx vy vz : BinNums.Z) :
  cells_exact R = true ->
  Float32.value (FVector.X p) = Some vx ->
  Float32.value (FVector.Y p) = Some vy ->
  Float32.value (FVector.Z p) = Some vz ->
  ContainsVector R p = occupies_scaled R vx vy vz.
Proof.
  intros HR Vx Vy Vz. destruct R as [rx ry rz rw rh rd].
  unfold cells_exact, corners_exact in HR;
    cbn [X Y Z Width Height Depth] in HR.
  do 8 (apply andb_prop in HR; destruct HR as [HR ?]).
  repeat match goal with
         | H : (_ <=? _) = true |- _ => apply Z.leb_le in H
         | H : (_ <? _) = true |- _ => apply Z.ltb_lt in H
         end.
  assert (E : forall a w, Z.abs (a + w) <= 16777216 -> Int32.add a w = a + w).
  { intros a w H'. apply Int32Facts.wrap_small, Int32Facts.in_range_iff.
    unfold Int32.min_signed, Int32.max_signed. lia. }
  assert (S1 : forall u, Z.abs u <= 16777216 ->
             Float32.sub (Float32.of_int u) (Float32.of_int 1)
             = Float32.of_int (u - 1)).
  { intros u Hu. rewrite Float32Facts.sub_one_of_int.
    - now rewrite Float32Facts.round_int_exact.
    - change (2 ^ 31) with 2147483648. lia. }
  unfold ContainsVector, occupies_scaled, GetLower, GetUpper, FVector.of_ints,
    Float32.gt; cbn [X Y Z Width Height Depth FVector.X FVector.Y FVector.Z].
  rewrite !E by assumption. rewrite !S1 by assumption.
  change 16777216 with (2 ^ 24) in *.
  rewrite (Float32Facts.lt_value _ _ _ _ Vx (Float32Facts.of_int_value rx ltac:(lia))),
    (Float32Facts.lt_value _ _ _ _ Vy (Float32Facts.of_int_value ry ltac:(lia))),
    (Float32Facts.lt_value _ _ _ _ Vz (Float32Facts.of_int_value rz ltac:(lia))),
    (Float32Facts.lt_value _ _ _ _
       (Float32Facts.of_int_value (rx + rw - 1) ltac:(lia)) Vx),
    (Float32Facts.lt_value _ _ _ _
       (Float32Facts.of_int_value (ry + rh - 1) ltac:(lia)) Vy),
    (Float32Facts.lt_value _ _ _ _
       (Float32Facts.of_int_value (rz + rd - 1) ltac:(lia)) Vz).
  rewrite !Z.leb_antisym.
  repeat match goal with
         | |- context [?a <? ?b] => generalize (a <? b); intro
         end.
  repeat match goal with b : bool |- _ => destruct b end; reflexivity.
Qed.

Lemma ContainsVector_finite_point_witness :
  Float32.value (S754_finite false 8388608 (-24)) = Some (2 ^ 148) /\
  ContainsVector (Make 0 0 0 1 1 1)
    (FVector.Make (S754_finite false 8388608 (-24))   (* 1/2 *)
                  (S754_zero false) (S754_zero false))
  = false.
Proof.
  split; [ reflexivity | ].
  exact (ContainsVector_finite_point (Make 0 0 0 1 1 1)
           (FVector.Make (S754_finite false 8388608 (-24))
                         (S754_zero false) (S754_zero false))
           (2 ^ 148) 0 0 eq_refl eq_refl eq_refl eq_refl).
Defined.

(** The region of the default constructor contains no point, except that
    the vector whose three coordinates are NaN passes the test. *)
Theorem default_contains_only_NaN (p : FVector.t) :
  ContainsVector default p =
    Float32.is_nan (FVector.X p) && Float32.is_nan (FVector.Y p) &&
    Float32.is_nan (FVector.Z p).
Proof.
  assert (Haxis : forall x : Float32.float,
             Float32.lt x (S754_zero false)
             || Float32.gt x (S754_finite true 8388608 (-23))
             = negb (Float32.is_nan x)).
  { intros [ [ | ] | [ | ] | | [ | ] m e ]; reflexivity. }
  destruct p as [x y z].
  unfold ContainsVector, default, GetLower, GetUpper, FVector.of_ints;
    cbn [X Y Z Width Height Depth FVector.X FVector.Y FVector.Z].
  change (Float32.of_int (Int32.add 0 0)) with (S754_zero false).
  change (Float32.of_int 0) with (S754_zero false).
  change (Float32.sub (S754_zero false) (Float32.of_int 1))
    with (S754_finite true 8388608 (-23)).
  pose proof (Haxis x) as Hx. pose proof (Haxis y) as Hy.
  pose proof (Haxis z) as Hz. revert Hx Hy Hz.
  generalize (Float32.lt x (S754_zero false))
             (Float32.gt x (S754_finite true 8388608 (-23)))
             (Float32.lt y (S754_zero false))
             (Float32.gt y (S754_finite true 8388608 (-23)))
             (Float32.lt z (S754_zero false))
             (Float32.gt z (S754_finite true 8388608 (-23)))
             (Float32.is_nan x) (Float32.is_nan y) (Float32.is_nan z).
  intros b1 b2 b3 b4 b5 b6 n1 n2 n3.
  destruct b1, b2, b3, b4, b5, b6, n1, n2, n3; cbn;
    intros; try discriminate; reflexivity.
Qed.

(** ** The mutators *)

(** Every mutator is undone by the same mutator with the opposite
    amounts, whatever the [int32] amounts and whatever wraps around in
    between. *)
Theorem mutators_inverse (r : FVoreealRegion.t) (dx dy dz : int32) :
  well_typed r = true ->
  Grow (Int32.neg dx) (Int32.neg dy) (Int32.neg dz) (Grow dx dy dz r) = r /\
  ShiftUpperCorner (Int32.neg dx) (Int32.neg dy) (Int32.neg dz)
    (ShiftUpperCorner dx dy dz r) = r /\
  ShiftLowerCorner (Int32.neg dx) (Int32.neg dy) (Int32.neg dz)
    (ShiftLowerCorner dx dy dz r) = r.
Proof.
  intros Hr. region_fields r Hr.
  unfold Grow, ShiftUpperCorner, ShiftLowerCorner;
    cbn [X Y Z Width Height Depth].
  split; [ | split ]; f_equal; int32_arith.
Qed.

Lemma mutators_inverse_witness :
  well_typed (Make 2 3 4 5 6 7) = true /\
  Grow (Int32.neg 1) (Int32.neg 2) (Int32.neg 3)
    (Grow 1 2 3 (Make 2 3 4 5 6 7)) = Make 2 3 4 5 6 7.
Proof.
  split; [ reflexivity | ].
  exact (proj1 (mutators_inverse (Make 2 3 4 5 6 7) 1 2 3 eq_refl)).
Defined.

(** Two successive calls of a mutator amount to one call with the sums of
    the amounts, in wrap-around arithmetic. *)
Theorem mutators_compose (r : FVoreealRegion.t) (a b c a' b' c' : int32) :
  Grow a' b' c' (Grow a b c r)
    = Grow (Int32.add a a') (Int32.add b b') (Int32.add c c') r /\
  ShiftUpperCorner a' b' c' (ShiftUpperCorner a b c r)
    = ShiftUpperCorner (Int32.add a a') (Int32.add b b') (Int32.add c c') r /\
  ShiftLowerCorner a' b' c' (ShiftLowerCorner a b c r)
    = ShiftLowerCorner (Int32.add a a') (Int32.add b b') (Int32.add c c') r.
Proof.
  assert (Hsub : forall x d d',
             Int32.sub (Int32.sub x d) d' = Int32.sub x (Int32.add d d')).
  { intros x d d'. unfold Int32.sub, Int32.add.
    destruct (Int32Facts.wrap_repr (x - d)) as [k1 ->].
    destruct (Int32Facts.wrap_repr (d + d')) as [k2 ->].
    apply Int32Facts.wrap_congr with (k := k1 + k2). ring. }
  assert (Hadd : forall x d d',
             Int32.add (Int32.add x d) d' = Int32.add x (Int32.add d d')).
  { intros x d d'. unfold Int32.add.
    destruct (Int32Facts.wrap_repr (x + d)) as [k1 ->].
    destruct (Int32Facts.wrap_repr (d + d')) as [k2 ->].
    apply Int32Facts.wrap_congr with (k := k1 - k2). ring. }
  assert (Hmul : forall w d d',
             Int32.add (Int32.add w (Int32.mul d 2)) (Int32.mul d' 2)
             = Int32.add w (Int32.mul (Int32.add d d') 2)).
  { intros w d d'. unfold Int32.add, Int32.mul.
    destruct (Int32Facts.wrap_repr (d * 2)) as [k1 ->].
    destruct (Int32Facts.wrap_repr (d' * 2)) as [k2 ->].
    destruct (Int32Facts.wrap_repr (w + (d * 2 + k1 * Int32.modulus)))
      as [k3 ->].
    destruct (Int32Facts.wrap_repr (d + d')) as [k4 ->].
    destruct (Int32Facts.wrap_repr ((d + d' + k4 * Int32.modulus) * 2))
      as [k5 ->].
    apply Int32Facts.wrap_congr with (k := k1 + k2 + k3 - 2 * k4 - k5).
    ring. }
  destruct r as [rx ry rz rw rh rd].
  unfold Grow, ShiftUpperCorner, ShiftLowerCorner;
    cbn [X Y Z Width Height Depth].
  split; [ | split ]; f_equal;
    match goal with
    | |- Int32.sub _ _ = _ => apply Hsub
    | |- Int32.add _ (Int32.mul _ _) = _ => apply Hmul
    | |- Int32.add _ _ = _ => apply Hadd
    end.
Qed.

(** [Grow] keeps the centre of a region whose extents are non-negative
    before and after the call: what is taken from the origin is half of
    what is added to the extent. *)
Theorem Grow_keeps_GetCenter (r : FVoreealRegion.t) (dx dy dz : int32) :
  well_typed r = true ->
  0 <= Width r -> 0 <= Width r + 2 * dx <= Int32.max_signed ->
  0 <= Height r -> 0 <= Height r + 2 * dy <= Int32.max_signed ->
  0 <= Depth r -> 0 <= Depth r + 2 * dz <= Int32.max_signed ->
  GetCenter (Grow dx dy dz r) = GetCenter r.
Proof.
  intros Hr Hw Hw' Hh Hh' Hd Hd'.
  assert (Haxis : forall x w d,
             Int32.in_range w = true -> 0 <= w ->
             0 <= w + 2 * d <= Int32.max_signed ->
             Int32.add (Int32.sub x d)
                       (Int32.div (Int32.add w (Int32.mul d 2)) 2)
             = Int32.add x (Int32.div w 2)).
  { intros x w d Hin H0 H1. apply Int32Facts.in_range_iff in Hin.
    unfold Int32.min_signed, Int32.max_signed in *.
    assert (E1 : Int32.add w (Int32.mul d 2) = w + 2 * d).
    { unfold Int32.add, Int32.mul.
      destruct (Int32Facts.wrap_repr (d * 2)) as [k ->].
      rewrite (Int32Facts.wrap_congr (w + (d * 2 + k * Int32.modulus))
                 (w + 2 * d) k) by ring.
      apply Int32Facts.wrap_small, Int32Facts.in_range_iff.
      unfold Int32.min_signed, Int32.max_signed. lia. }
    rewrite E1.
    assert (E2 : Int32.div (w + 2 * d) 2 = Z.quot w 2 + d).
    { unfold Int32.div. rewrite Int32Facts.wrap_small.
      - rewrite !Z.quot_div_nonneg by lia.
        replace (w + 2 * d) with (w + d * 2) by ring.
        now rewrite Z.div_add by lia.
      - apply Int32Facts.in_range_iff.
        unfold Int32.min_signed, Int32.max_signed.
        Z.quot_rem_to_equations. lia. }
    assert (E3 : Int32.div w 2 = Z.quot w 2).
    { unfold Int32.div. apply Int32Facts.wrap_small, Int32Facts.in_range_iff.
      unfold Int32.min_signed, Int32.max_signed.
      Z.quot_rem_to_equations. lia. }
    rewrite E2, E3. unfold Int32.add, Int32.sub.
    destruct (Int32Facts.wrap_repr (x - d)) as [k ->].
    apply Int32Facts.wrap_congr with (k := k). ring. }
  destruct r as [rx ry rz rw rh rd].
  unfold well_typed in Hr; cbn [X Y Z Width Height Depth] in *.
  do 5 (apply andb_prop in Hr; destruct Hr as [Hr ?]).
  unfold GetCenter, Grow; cbn [X Y Z Width Height Depth].
  rewrite !Haxis by assumption. reflexivity.
Qed.

Lemma Grow_keeps_GetCenter_witness :
  well_typed (Make 2 3 4 5 6 7) = true /\
  GetCenter (Grow 1 (-2) 3 (Make 2 3 4 5 6 7)) = GetCenter (Make 2 3 4 5 6 7).
Proof.
  split; [ reflexivity | ].
  refine (Grow_keeps_GetCenter (Make 2 3 4 5 6 7) 1 (-2) 3 eq_refl
            _ _ _ _ _ _);
    cbn; unfold Int32.max_signed; try split; discriminate.
Defined.

Lemma Grow_axis_exact (x w d : int32) :
  Int32.in_range x = true -> Int32.in_range w = true ->
  0 <= d <= Int32.max_signed -> 0 <= w ->
  Z.abs x <= 16777216 -> Z.abs (x + w) <= 16777216 ->
  Z.abs (Int32.sub x d) <= 16777216 ->
  Z.abs (Int32.sub x d + Int32.add w (Int32.mul d 2)) <= 16777216 ->
  Int32.sub x d = x - d /\ Int32.add w (Int32.mul d 2) = w + 2 * d.
Proof.
  intros Hix Hiw Hd Hw0 Ex Eu Ex' Eu'.
  assert (Es : Int32.sub x d = x - d).
  { revert Ex'. unfold Int32.sub.
    destruct (Int32Facts.wrap_repr (x - d)) as [k ->].
    unfold Int32.max_signed, Int32.modulus in *. lia. }
  split; [ exact Es | ]. rewrite Es in Eu'.
  revert Eu'. unfold Int32.add, Int32.mul.
  destruct (Int32Facts.wrap_repr (d * 2)) as [k1 ->].
  destruct (Int32Facts.wrap_repr (w + (d * 2 + k1 * Int32.modulus)))
    as [k2 ->].
  unfold Int32.max_signed, Int32.modulus in *. lia.
Qed.

Lemma corners_exact_fields (r : FVoreealRegion.t) :
  corners_exact r = true ->
  (Z.abs (X r) <= 16777216 /\ Z.abs (X r + Width r) <= 16777216) /\
  (Z.abs (Y r) <= 16777216 /\ Z.abs (Y r + Height r) <= 16777216) /\
  (Z.abs (Z r) <= 16777216 /\ Z.abs (Z r + Depth r) <= 16777216).
Proof.
  unfold corners_exact. rewrite !andb_true_iff, !Z.leb_le. tauto.
Qed.

Lemma well_typed_fields (r : FVoreealRegion.t) :
  well_typed r = true ->
  (Int32.in_range (X r) = true /\ Int32.in_range (Width r) = true) /\
  (Int32.in_range (Y r) = true /\ Int32.in_range (Height r) = true) /\
  (Int32.in_range (Z r) = true /\ Int32.in_range (Depth r) = true).
Proof.
  unfold well_typed. rewrite !andb_true_iff. tauto.
Qed.

Lemma valid_fields (r : FVoreealRegion.t) :
  valid r = true -> 0 <= Width r /\ 0 <= Height r /\ 0 <= Depth r.
Proof.
  unfold valid. rewrite !andb_true_iff, !Z.leb_le. tauto.
Qed.

(** A region grown by non-negative amounts contains the region it was
    grown from, when that region is valid and single precision holds the
    corners of both exactly. *)
Theorem Grow_contains_original (r : FVoreealRegion.t) (dx dy dz : int32) :
  well_typed r = true -> valid r = true ->
  corners_exact r = true -> corners_exact (Grow dx dy dz r) = true ->
  0 <= dx <= Int32.max_signed -> 0 <= dy <= Int32.max_signed ->
  0 <= dz <= Int32.max_signed ->
  Contains (Grow dx dy dz r) r = EContainmentType.Contains.
Proof.
  intros Ht Hv Hr Hg Hx Hy Hz.
  rewrite (classify_exact _ _ Hg Hr), classify_corners_boxes,
    classify_boxes_Contains.
  apply well_typed_fields in Ht. apply valid_fields in Hv.
  apply corners_exact_fields in Hr, Hg.
  destruct r as [rx ry rz rw rh rd].
  cbn [Grow X Y Z Width Height Depth FIntVector.X FIntVector.Y FIntVector.Z]
    in *.
  destruct Ht as [[? ?] [[? ?] [? ?]]], Hv as [Hw [Hh Hd]],
    Hr as [[? ?] [[? ?] [? ?]]], Hg as [[? ?] [[? ?] [? ?]]].
  destruct (Grow_axis_exact rx rw dx) as [Ex Ew]; try assumption.
  destruct (Grow_axis_exact ry rh dy) as [Ey Eh]; try assumption.
  destruct (Grow_axis_exact rz rd dz) as [Ez Ed]; try assumption.
  rewrite Ex, Ew, Ey, Eh, Ez, Ed.
  clear - Hx Hy Hz Hw Hh Hd. lia.
Qed.

Lemma Grow_contains_original_witness :
  corners_exact (Grow 1 2 3 (Make 2 3 4 5 6 7)) = true /\
  Contains (Grow 1 2 3 (Make 2 3 4 5 6 7)) (Make 2 3 4 5 6 7)
    = EContainmentType.Contains.
Proof.
  split; [ reflexivity | ].
  refine (Grow_contains_original (Make 2 3 4 5 6 7) 1 2 3
            eq_refl eq_refl eq_refl eq_refl _ _ _);
    unfold Int32.max_signed; split; discriminate.
Defined.

(** ** The constructors *)

Lemma corner_axis_exact (l u : int32) :
  Z.abs l <= 16777216 -> Z.abs u <= 16777216 -> Z.abs (l - u) <= 16777216 ->
  Float32.to_int (Float32.of_int l) = Some l /\
  Float32.to_int (Float32.sub (Float32.of_int l) (Float32.of_int u))
    = Some (Int32.sub l u).
Proof.
  intros Hl Hu Hd.
  split; [ now apply Float32Facts.to_int_of_int | ].
  rewrite Float32Facts.sub_of_int_exact by assumption.
  rewrite Float32Facts.to_int_of_int by assumption.
  f_equal. symmetry. apply Int32Facts.wrap_small, Int32Facts.in_range_iff.
  unfold Int32.min_signed, Int32.max_signed. lia.
Qed.

Lemma of_corners_exact (lx ly lz ux uy uz : int32) :
  Z.abs lx <= 16777216 /\ Z.abs ux <= 16777216 /\ Z.abs (lx - ux) <= 16777216 ->
  Z.abs ly <= 16777216 /\ Z.abs uy <= 16777216 /\ Z.abs (ly - uy) <= 16777216 ->
  Z.abs lz <= 16777216 /\ Z.abs uz <= 16777216 /\ Z.abs (lz - uz) <= 16777216 ->
  of_corners (FVector.of_ints lx ly lz) (FVector.of_ints ux uy uz)
    = Some (of_int_corners (FIntVector.Make lx ly lz)
                           (FIntVector.Make ux uy uz)).
Proof.
  intros (Hlx & Hux & Hdx) (Hly & Huy & Hdy) (Hlz & Huz & Hdz).
  destruct (corner_axis_exact lx ux Hlx Hux Hdx) as [Ex Ew].
  destruct (corner_axis_exact ly uy Hly Huy Hdy) as [Ey Eh].
  destruct (corner_axis_exact lz uz Hlz Huz Hdz) as [Ez Ed].
  unfold of_corners, of_int_corners, FVector.of_ints;
    cbn [FVector.X FVector.Y FVector.Z FIntVector.X FIntVector.Y FIntVector.Z].
  rewrite Ex, Ey, Ez, Ew, Eh, Ed. reflexivity.
Qed.

(** On corners with integer coordinates that single precision holds
    exactly, differences included, the constructor from [FVector] corners
    builds the region that the constructor from [FIntVector] corners
    builds. *)
Theorem of_corners_on_integers (lx ly lz ux uy uz : int32) :
  Z.abs lx <= 16777216 /\ Z.abs ux <= 16777216 /\ Z.abs (lx - ux) <= 16777216 ->
  Z.abs ly <= 16777216 /\ Z.abs uy <= 16777216 /\ Z.abs (ly - uy) <= 16777216 ->
  Z.abs lz <= 16777216 /\ Z.abs uz <= 16777216 /\ Z.abs (lz - uz) <= 16777216 ->
  of_corners (FVector.of_ints lx ly lz) (FVector.of_ints ux uy uz)
    = Some (of_int_corners (FIntVector.Make lx ly lz)
                           (FIntVector.Make ux uy uz)).
Proof. exact (of_corners_exact lx ly lz ux uy uz). Qed.

Lemma of_corners_on_integers_witness :
  of_corners (FVector.of_ints 2 3 4) (FVector.of_ints 7 9 11)
    = Some (Make 2 3 4 (-5) (-6) (-7)).
Proof.
  refine (of_corners_on_integers 2 3 4 7 9 11 _ _ _);
    (split; [ | split ]); discriminate.
Defined.

(** A region rebuilt from its own [Min()] and [Max()] has its three
    extents negated, when single precision holds its corners and its
    extents exactly. *)
Theorem rebuilt_from_Min_Max (r : FVoreealRegion.t) :
  corners_exact r = true ->
  Z.abs (Width r) <= 16777216 -> Z.abs (Height r) <= 16777216 ->
  Z.abs (Depth r) <= 16777216 ->
  of_corners (Min r) (Max r)
    = Some (Make (X r) (Y r) (Z r) (- Width r) (- Height r) (- Depth r)).
Proof.
  intros Hr Hw Hh Hd. apply corners_exact_fields in Hr.
  destruct r as [rx ry rz rw rh rd]; cbn [X Y Z Width Height Depth] in *.
  destruct Hr as [[Hx Hxw] [[Hy Hyh] [Hz Hzd]]].
  assert (Hadd : forall a w, Z.abs (a + w) <= 16777216 -> Int32.add a w = a + w).
  { intros a w H. apply Int32Facts.wrap_small, Int32Facts.in_range_iff.
    unfold Int32.min_signed, Int32.max_signed. lia. }
  assert (Hneg : forall a w,
             Z.abs w <= 16777216 -> Int32.sub a (a + w) = - w).
  { intros a w H. unfold Int32.sub. replace (a - (a + w)) with (- w) by ring.
    apply Int32Facts.wrap_small, Int32Facts.in_range_iff.
    unfold Int32.min_signed, Int32.max_signed. lia. }
  unfold Min, Max; cbn [X Y Z Width Height Depth].
  rewrite (Hadd rx rw Hxw), (Hadd ry rh Hyh), (Hadd rz rd Hzd).
  rewrite of_corners_exact.
  - unfold of_int_corners;
      cbn [FIntVector.X FIntVector.Y FIntVector.Z].
    now rewrite (Hneg rx rw Hw), (Hneg ry rh Hh), (Hneg rz rd Hd).
  - replace (rx - (rx + rw)) with (- rw) by ring. rewrite Z.abs_opp. auto.
  - replace (ry - (ry + rh)) with (- rh) by ring. rewrite Z.abs_opp. auto.
  - replace (rz - (rz + rd)) with (- rd) by ring. rewrite Z.abs_opp. auto.
Qed.

Lemma rebuilt_from_Min_Max_witness :
  of_corners (Min (Make 2 3 4 5 6 7)) (Max (Make 2 3 4 5 6 7))
    = Some (Make 2 3 4 (-5) (-6) (-7)).
Proof.
  refine (rebuilt_from_Min_Max (Make 2 3 4 5 6 7) eq_refl _ _ _);
    discriminate.
Defined.

Lemma size_axis (x : float) (w : BinNums.Z) :
  Float32.truncate x = Some w ->
  Float32.to_int (Float32.sub (S754_zero false) x)
    = if Int32.in_range (- w) then Some (- w) else None.
Proof.
  unfold Float32.to_int, Float32.sub.
  destruct x as [ s | s | | s m e ]; cbn [Float32.truncate SFsub];
    try discriminate.
  - intros H. apply Float32Facts.Some_inj in H. subst w.
    destruct s; reflexivity.
  - intros H. apply Float32Facts.Some_inj in H. subst w.
    cbn [Float32.truncate].
    replace (cond_Zopp (negb s)
               match e with
               | 0 => Zpos m
               | Zpos p => Zpos m * 2 ^ Zpos p
               | Zneg p => Zpos m / 2 ^ Zpos p
               end)
      with (- cond_Zopp s
                match e with
                | 0 => Zpos m
                | Zpos p => Zpos m * 2 ^ Zpos p
                | Zneg p => Zpos m / 2 ^ Zpos p
                end); [ reflexivity | ].
    destruct s; cbn [cond_Zopp negb]; lia.
Qed.

Lemma of_size_axes (Size : FVector.t) (w h d : BinNums.Z) :
  Float32.truncate (FVector.X Size) = Some w ->
  Float32.truncate (FVector.Y Size) = Some h ->
  Float32.truncate (FVector.Z Size) = Some d ->
  of_size Size =
    if Int32.in_range (- w) && Int32.in_range (- h) && Int32.in_range (- d)
    then Some (Make 0 0 0 (- w) (- h) (- d))
    else None.
Proof.
  intros Hw Hh Hd.
  unfold of_size, of_corners, FVector.ZeroVector;
    cbn [FVector.X FVector.Y FVector.Z].
  rewrite (size_axis _ _ Hw), (size_axis _ _ Hh), (size_axis _ _ Hd).
  change (Float32.to_int (S754_zero false)) with (Some 0).
  destruct (Int32.in_range (- w)), (Int32.in_range (- h)),
    (Int32.in_range (- d)); reflexivity.
Qed.

(** The size-only constructor stores the negated size at the origin
    (0,0,0): it hands the zero vector and the size to the two-corner
    constructor, which subtracts the second from the first.  The size is
    any vector of finite numbers, each truncated toward zero, and the
    region exists when the three negated extents are [int32]. *)
Theorem of_size_negates (Size : FVector.t) (w h d : BinNums.Z) :
  Float32.truncate (FVector.X Size) = Some w ->
  Float32.truncate (FVector.Y Size) = Some h ->
  Float32.truncate (FVector.Z Size) = Some d ->
  of_size Size =
    if Int32.in_range (- w) && Int32.in_range (- h) && Int32.in_range (- d)
    then Some (Make 0 0 0 (- w) (- h) (- d))
    else None.
Proof. exact (of_size_axes Size w h d). Qed.

Lemma of_size_negates_witness :
  of_size (FVector.of_ints 5 6 7) = Some (Make 0 0 0 (-5) (-6) (-7)).
Proof.
  exact (of_size_negates (FVector.of_ints 5 6 7) 5 6 7
           eq_refl eq_refl eq_refl).
Defined.

(** The size-only constructor applied to the [Size()] of a region gives
    the region at the origin (0,0,0) whose extents are those of the given
    region negated, when single precision holds the extents exactly. *)
Theorem of_size_of_Size (r : FVoreealRegion.t) :
  Z.abs (Width r) <= 16777216 -> Z.abs (Height r) <= 16777216 ->
  Z.abs (Depth r) <= 16777216 ->
  of_size (Size r) = Some (Make 0 0 0 (- Width r) (- Height r) (- Depth r)).
Proof.
  intros Hw Hh Hd.
  assert (Ht : forall z, Z.abs z <= 16777216 ->
                         Float32.truncate (Float32.of_int z) = Some z).
  { intros z Hz. rewrite Float32Facts.truncate_of_int
      by (change (2 ^ 31) with 2147483648; lia).
    now rewrite Float32Facts.round_int_exact by assumption. }
  assert (Hin : forall z, Z.abs z <= 16777216 -> Int32.in_range (- z) = true).
  { intros z Hz. apply Int32Facts.in_range_iff.
    unfold Int32.min_signed, Int32.max_signed. lia. }
  rewrite (of_size_axes (Size r) (Width r) (Height r) (Depth r)
             (Ht _ Hw) (Ht _ Hh) (Ht _ Hd)).
  now rewrite (Hin _ Hw), (Hin _ Hh), (Hin _ Hd).
Qed.

Lemma of_size_of_Size_witness :
  of_size (Size (Make 2 3 4 5 6 7)) = Some (Make 0 0 0 (-5) (-6) (-7)).
Proof.
  refine (of_size_of_Size (Make 2 3 4 5 6 7) _ _ _); discriminate.
Defined.

(** Built from two integer corners, a region keeps the first as its lower
    corner, and has as its upper corner the mirror image of the second
    through the first; it is valid exactly when the second corner is
    nowhere above the first.  The coordinates are at most [2^29] in
    magnitude, so that nothing wraps around. *)
Theorem of_int_corners_mirrors (lx ly lz ux uy uz : int32) :
  Z.abs lx <= 536870912 /\ Z.abs ux <= 536870912 ->
  Z.abs ly <= 536870912 /\ Z.abs uy <= 536870912 ->
  Z.abs lz <= 536870912 /\ Z.abs uz <= 536870912 ->
  let r := of_int_corners (FIntVector.Make lx ly lz)
                          (FIntVector.Make ux uy uz) in
  GetLowerInt r = FIntVector.Make lx ly lz /\
  GetUpperInt r =
    FIntVector.Make (2 * lx - ux) (2 * ly - uy) (2 * lz - uz) /\
  (valid r = true <-> ux <= lx /\ uy <= ly /\ uz <= lz).
Proof.
  intros [Hlx Hux] [Hly Huy] [Hlz Huz].
  assert (Hsub : forall l u,
             Z.abs l <= 536870912 -> Z.abs u <= 536870912 ->
             Int32.sub l u = l - u /\ Int32.add l (l - u) = 2 * l - u).
  { intros l u Hl Hu. unfold Int32.add, Int32.sub.
    replace (l + (l - u)) with (2 * l - u) by ring.
    split; apply Int32Facts.wrap_small, Int32Facts.in_range_iff;
      unfold Int32.min_signed, Int32.max_signed; lia. }
  destruct (Hsub lx ux Hlx Hux) as [Ex Ex'].
  destruct (Hsub ly uy Hly Huy) as [Ey Ey'].
  destruct (Hsub lz uz Hlz Huz) as [Ez Ez'].
  unfold of_int_corners, GetLowerInt, GetUpperInt, valid;
    cbn [X Y Z Width Height Depth FIntVector.X FIntVector.Y FIntVector.Z].
  rewrite Ex, Ey, Ez.
  split; [ reflexivity | ].
  split.
  - now rewrite Ex', Ey', Ez'.
  - rewrite !andb_true_iff, !Z.leb_le. lia.
Qed.

Lemma of_int_corners_mirrors_witness :
  GetUpperInt (of_int_corners (FIntVector.Make 0 0 0) (FIntVector.Make 1 2 3))
    = FIntVector.Make (-1) (-2) (-3).
Proof.
  refine (proj1 (proj2 (of_int_corners_mirrors 0 0 0 1 2 3 _ _ _)));
    split; discriminate.
Defined.

(** ** Rounding and the classification *)

(** Whatever the size of the corners, rounding them to single precision
    never invents a separation and never loses a containment: regions
    reported disjoint have disjoint integer boxes, and a region whose
    integer box lies within another's is reported contained.  The converse
    of the first fails beyond [2^24]: the boxes [0, 16777216] and
    [16777217, 16777218] on the first axis are one unit apart, yet they
    are not reported disjoint. *)
Theorem Contains_rounding_sound (A B : FVoreealRegion.t) :
  well_typed A = true -> well_typed B = true ->
  (Contains A B = EContainmentType.Disjoint ->
   classify_boxes (GetLowerInt A) (GetUpperInt A)
                  (GetLowerInt B) (GetUpperInt B)
     = EContainmentType.Disjoint) /\
  (classify_boxes (GetLowerInt A) (GetUpperInt A)
                  (GetLowerInt B) (GetUpperInt B)
     = EContainmentType.Contains ->
   Contains A B = EContainmentType.Contains) /\
  (classify_boxes (GetLowerInt (Make 16777217 0 0 1 1 1))
                  (GetUpperInt (Make 16777217 0 0 1 1 1))
                  (GetLowerInt (Make 0 0 0 16777216 1 1))
                  (GetUpperInt (Make 0 0 0 16777216 1 1))
     = EContainmentType.Disjoint /\
   Contains (Make 16777217 0 0 1 1 1) (Make 0 0 0 16777216 1 1)
     = EContainmentType.Intersects).
Proof.
  intros HA HB.
  split; [ | split; [ | split; vm_compute; reflexivity ] ].
  - rewrite (Contains_values A B HA HB), !classify_boxes_Disjoint.
    unfold LowerValue, UpperValue, GetLowerInt, GetUpperInt;
      cbn [FIntVector.X FIntVector.Y FIntVector.Z].
    assert (Hlt : forall a b,
               Float32.round_int a < Float32.round_int b -> a < b).
    { intros a b H. destruct (Z_lt_le_dec a b) as [ | Hle ];
        [ assumption | ].
      apply Float32Facts.round_int_mono in Hle. lia. }
    intros [H | [H | [H | [H | [H | H]]]]]; apply Hlt in H; lia.
  - rewrite (Contains_values A B HA HB), !classify_boxes_Contains.
    unfold LowerValue, UpperValue, GetLowerInt, GetUpperInt;
      cbn [FIntVector.X FIntVector.Y FIntVector.Z].
    pose proof Float32Facts.round_int_mono as Hm.
    intros [(H1 & H2 & H3 & H4 & H5 & H6) (K1 & K2 & K3 & K4 & K5 & K6)].
    repeat split; apply Hm; assumption.
Qed.

Lemma Contains_rounding_sound_witness :
  Contains (Make 0 0 0 10 10 10) (Make 2 2 2 3 3 3)
    = EContainmentType.Contains.
Proof.
  refine (proj1 (proj2 (Contains_rounding_sound
                          (Make 0 0 0 10 10 10) (Make 2 2 2 3 3 3)
                          eq_refl eq_refl)) _).
  reflexivity.
Defined.

(** [Intersect] is not symmetric, but nearly: when it holds of two regions
    and fails of them exchanged, the second contains the first. *)
Theorem Intersect_converse (A B : FVoreealRegion.t) :
  Intersect A B = true ->
  Intersect B A = true \/ Contains B A = EContainmentType.Contains.
Proof.
  unfold Intersect. intros H.
  assert (HD : Contains A B <> EContainmentType.Disjoint).
  { intros E. rewrite E in H. discriminate H. }
  rewrite (Disjoint_swap A B) in HD.
  revert HD. generalize (Contains B A). intros c Hc.
  destruct c; [ now elim Hc | now right | now left ].
Qed.

Lemma Intersect_converse_witness :
  Intersect (Make 2 2 2 3 3 3) (Make 0 0 0 10 10 10) = true /\
  (Intersect (Make 0 0 0 10 10 10) (Make 2 2 2 3 3 3) = true \/
   Contains (Make 0 0 0 10 10 10) (Make 2 2 2 3 3 3)
     = EContainmentType.Contains).
Proof.
  assert (H : Intersect (Make 2 2 2 3 3 3) (Make 0 0 0 10 10 10) = true)
    by (vm_compute; reflexivity).
  split; [ exact H | ].
  exact (Intersect_converse (Make 2 2 2 3 3 3) (Make 0 0 0 10 10 10) H).
Defined.
